(** * Endpoint selection, health tracking and retry engine of the
      documentdb client

    A shallow embedding of [shouldRetry], [markEndpointUnavailable],
    [purgeStaleEndpointUnavailability], [getCosmosEndpoint], [do] and
    [GetRegionalEndpoints] of the Go client, with the properties of the
    endpoint registry and of the retry loop proved over it.

    Conventions of the embedding:
    - Go's [int] and [int64] are 64-bit two's complement integers, carried
      as [Z] with the wrap-around of [+] and [-] written out ([Int64.add],
      [Int64.sub]).
    - A [*CosmosEndpoint] is a reference into the client's registry
      ([EndpointPtr]): the default endpoint, or a cell of one of the two
      location slices.  Writes through the pointer are writes to the
      registry, as in the source.
    - [time.Now().Unix()] is an argument [now] of every operation that
      reads the clock; one call observes one clock value.
    - [fmt.Printf] output is not modelled. *)

From stdpp Require Import base numbers list strings.

(** ** Machine integers *)

Module Int64.
Local Open Scope Z_scope.

Definition modulus : Z := 2 ^ 64.
Definition min_int : Z := - 2 ^ 63.
Definition max_int : Z := 2 ^ 63 - 1.

Definition in_range (z : Z) : Prop := min_int <= z <= max_int.

(** Two's complement reduction of a mathematical integer. *)
Definition wrap (z : Z) : Z := (z + 2 ^ 63) mod modulus - 2 ^ 63.

Definition add (a b : Z) : Z := wrap (a + b).
Definition sub (a b : Z) : Z := wrap (a - b).
End Int64.

(** ** Data model *)

(** Modelled from the spec: the struct declarations [CosmosEndpoint],
    [Config] (with its [RetryOptions] and [RegionalOptions]),
    [EndpointDescription] and the enumeration [EndpointType] are declared
    outside the files at hand; the records below have the fields that the
    code reads and writes, with the types of the spec's data model. *)
Record CosmosEndpoint := mkCosmosEndpoint {
  EndpointName : string;
  EndpointURL : string;
  IsDefaultEndpoint : bool;
  IsUnavailable : bool;
  UnavailableTimestamp : Z
}.

Record RetryOptionsT := mkRetryOptions {
  RetryCount : Z;
  EndpointUnavailableTimeSec : Z
}.

Record RegionalOptionsT := mkRegionalOptions {
  PreferredLocation : string;
  UseMultipleWriteLocations : bool
}.

Record ConfigT := mkConfig {
  MasterKey : string;
  RetryOptions : RetryOptionsT;
  RegionalOptions : RegionalOptionsT
}.

Record Client := mkClient {
  Config : ConfigT;
  DefaultEndpoint : CosmosEndpoint;
  ReadLocations : list CosmosEndpoint;
  WriteLocations : list CosmosEndpoint
}.

Inductive EndpointType := EndpointType_ReadOnly | EndpointType_ReadWrite.

(** [c.DefaultEndpoint], [&c.ReadLocations[i]] and [&c.WriteLocations[i]]. *)
Inductive EndpointPtr :=
| PtrDefault
| PtrRead (i : nat)
| PtrWrite (i : nat).

(** Reading through a pointer.  [None] is a pointer that designates no cell
    of the current registry. *)
Definition deref (c : Client) (p : EndpointPtr) : option CosmosEndpoint :=
  match p with
  | PtrDefault => Some (DefaultEndpoint c)
  | PtrRead i => ReadLocations c !! i
  | PtrWrite i => WriteLocations c !! i
  end.

(** Writing through a pointer. *)
Definition assign (c : Client) (p : EndpointPtr) (e : CosmosEndpoint) : Client :=
  match p with
  | PtrDefault =>
      mkClient (Config c) e (ReadLocations c) (WriteLocations c)
  | PtrRead i =>
      mkClient (Config c) (DefaultEndpoint c) (<[i := e]> (ReadLocations c))
        (WriteLocations c)
  | PtrWrite i =>
      mkClient (Config c) (DefaultEndpoint c) (ReadLocations c)
        (<[i := e]> (WriteLocations c))
  end.

Definition retryCount (c : Client) : Z := RetryCount (RetryOptions (Config c)).
Definition unavailableTimeSec (c : Client) : Z :=
  EndpointUnavailableTimeSec (RetryOptions (Config c)).

(** ** Health tracker *)

(** [endpoint.IsUnavailable = true; endpoint.UnavailableTimestamp = now]. *)
Definition quarantined (now : Z) (e : CosmosEndpoint) : CosmosEndpoint :=
  mkCosmosEndpoint (EndpointName e) (EndpointURL e) (IsDefaultEndpoint e) true now.

(** [IsUnavailable = false; UnavailableTimestamp = 0]. *)
Definition released (e : CosmosEndpoint) : CosmosEndpoint :=
  mkCosmosEndpoint (EndpointName e) (EndpointURL e) (IsDefaultEndpoint e) false 0.

Definition markEndpointUnavailable (now : Z) (endpoint : EndpointPtr) (c : Client)
  : Client :=
  match deref c endpoint with
  | Some e =>
      if IsDefaultEndpoint e then c
      else assign c endpoint (quarantined now e)
  | None => c
  end.

(** [time.Now().Unix() - endpoint.UnavailableTimestamp > int64(threshold)]:
    an int64 subtraction and a strict comparison; the conversion of the
    configured integer to int64 keeps its value. *)
Definition stale (now threshold : Z) (e : CosmosEndpoint) : bool :=
  (threshold <? Int64.sub now (UnavailableTimestamp e))%Z.

(** The body of one iteration of [for i, endpoint := range locs]. *)
Definition purgeStep (now threshold : Z) (locs : list CosmosEndpoint) (i : nat)
  : list CosmosEndpoint :=
  match locs !! i with
  | Some endpoint =>
      if IsUnavailable endpoint then
        if stale now threshold endpoint then <[i := released endpoint]> locs
        else locs
      else locs
  | None => locs
  end.

Definition purgeLocations (now threshold : Z) (locs : list CosmosEndpoint)
  : list CosmosEndpoint :=
  foldl (purgeStep now threshold) locs (seq 0 (length locs)).

Definition purgeStaleEndpointUnavailability (now : Z) (c : Client) : Client :=
  let rl := purgeLocations now (unavailableTimeSec c) (ReadLocations c) in
  let wl := purgeLocations now (unavailableTimeSec c) (WriteLocations c) in
  mkClient (Config c) (DefaultEndpoint c) rl wl.

(** ** Endpoint selection *)

(** [for i, endpoint := range locs { if ok(endpoint) { return &locs[i] } }] *)
Fixpoint firstIndex (ok : CosmosEndpoint -> bool) (i : nat)
    (locs : list CosmosEndpoint) : option nat :=
  match locs with
  | [] => None
  | endpoint :: rest => if ok endpoint then Some i else firstIndex ok (S i) rest
  end.

Definition getCosmosEndpoint (now : Z) (endpointType : EndpointType) (c : Client)
  : Client * EndpointPtr :=
  let c := purgeStaleEndpointUnavailability now c in
  match endpointType with
  | EndpointType_ReadOnly =>
      match firstIndex (λ endpoint, negb (IsUnavailable endpoint)) 0
              (ReadLocations c) with
      | Some i => (c, PtrRead i)
      | None => (c, PtrDefault)
      end
  | EndpointType_ReadWrite =>
      match firstIndex
              (λ endpoint, negb (IsUnavailable endpoint)
                 && UseMultipleWriteLocations (RegionalOptions (Config c)))
              0 (WriteLocations c) with
      | Some i => (c, PtrWrite i)
      | None => (c, PtrDefault)
      end
  end.

(** ** Retry policy *)

Definition shouldRetry (now : Z) (statusCode : Z) (currentAttempt : Z)
    (currentEndpoint : EndpointPtr) (c : Client) : bool * Client :=
  if ((400 <=? statusCode) && (statusCode <=? 413))%Z then (false, c)
  else if (currentAttempt <? retryCount c)%Z then (true, c)
  else if (currentAttempt =? retryCount c)%Z
          && match deref c currentEndpoint with
             | Some e => negb (IsDefaultEndpoint e)
             | None => false
             end
       then (false, markEndpointUnavailable now currentEndpoint c)
       else (false, c).

(** ** Transport, requests and errors *)

Record Request := mkRequest {
  Method : string;
  URL : string
}.

Record HttpResponse := mkHttpResponse {
  StatusCode : Z;
  Header : list (string * list string);
  Body : string
}.

(** The library's [Response]: the headers of the HTTP response. *)
Record Response := mkResponse {
  ResponseHeader : list (string * list string)
}.

(** Go's [error] values met by the engine: [RequestError payload] is the
    [&RequestError{}] filled by [readJson] from a response body; any other
    error (transport, request construction, decoding) is [OtherError]. *)
Inductive error :=
| RequestError (payload : string)
| OtherError (msg : string).

(** What [c.Do(r.Request)] hands back as [(resp, err)].  [http.Client.Do]
    never returns [(nil, nil)]. *)
Inductive RoundTrip :=
| Responded (resp : HttpResponse)
| Failed (err : error)
| FailedWithResponse (resp : HttpResponse) (err : error).

Definition rt_resp (rt : RoundTrip) : option HttpResponse :=
  match rt with
  | Responded resp | FailedWithResponse resp _ => Some resp
  | Failed _ => None
  end.

Definition rt_err (rt : RoundTrip) : option error :=
  match rt with
  | Responded _ => None
  | Failed err | FailedWithResponse _ err => Some err
  end.

(** The transport answers the [n]-th attempt of one call of [do]. *)
Definition Transport := Z -> Request -> RoundTrip.

Definition statusCodeValidatorFunc := Z -> bool.

(** Modelled from the spec: [expectStatusCode], declared outside the files
    at hand, is the success predicate that expects exactly one status. *)
Definition expectStatusCode (status : Z) : statusCodeValidatorFunc :=
  λ statusCode, (statusCode =? status)%Z.

Definition StatusOK : Z := 200.
Definition MethodGet : string := "GET".

(** What a call of [do] leaves behind: the registry, the returned response
    and error, the value decoded into the destination [data] when
    one was written, and the requests handed to the transport, in order. *)
Record DoResult (D : Type) := mkDoResult {
  res_client : Client;
  res_response : option Response;
  res_err : option error;
  res_data : option D;
  res_sent : list Request
}.
Arguments mkDoResult {D}.
Arguments res_client {D}.
Arguments res_response {D}.
Arguments res_err {D}.
Arguments res_data {D}.
Arguments res_sent {D}.

(** [readJson(resp.Body, data)] for a destination of type [D]: the value left
    in the destination and the decoder's error. *)
Definition Decoder (D : Type) := string -> D * option error.

(** ** Retry-driven execution engine *)

Section Do.
Context {D : Type}.
Variable now : Z.
Variable transport : Transport.
Variable r : Request.
Variable validator : statusCodeValidatorFunc.
Variable data : option (Decoder D).
Variable endpoint : EndpointPtr.

(** The [for] loop of [do]; [fuel] bounds the number of iterations. *)
Fixpoint doLoop (fuel : nat) (currentAttempt responseStatusCode : Z)
    (sent : list Request) (c : Client) : option (DoResult D) :=
  match fuel with
  | O => None
  | S fuel =>
      let currentAttempt := Int64.add currentAttempt 1 in
      let sent := sent ++ [r] in
      let rt := transport currentAttempt r in
      match rt with
      | Responded resp =>
          if validator (StatusCode resp) then
            (* happy path *)
            match data with
            | None => Some (mkDoResult c None None None sent)
            | Some readJson =>
                let '(d, err) := readJson (Body resp) in
                Some (mkDoResult c (Some (mkResponse (Header resp))) err
                        (Some d) sent)
            end
          else
            let responseStatusCode := StatusCode resp in
            let err := Some (RequestError (Body resp)) in
            let '(retry, c) :=
              shouldRetry now responseStatusCode currentAttempt endpoint c in
            if retry then doLoop fuel currentAttempt responseStatusCode sent c
            else Some (mkDoResult c None err None sent)
      | Failed err =>
          let '(retry, c) :=
            shouldRetry now responseStatusCode currentAttempt endpoint c in
          if retry then doLoop fuel currentAttempt responseStatusCode sent c
          else Some (mkDoResult c None (Some err) None sent)
      | FailedWithResponse resp err =>
          let responseStatusCode := StatusCode resp in
          let err :=
            if validator (StatusCode resp) then Some err
            else Some (RequestError (Body resp)) in
          let '(retry, c) :=
            shouldRetry now responseStatusCode currentAttempt endpoint c in
          if retry then doLoop fuel currentAttempt responseStatusCode sent c
          else Some (mkDoResult c None err None sent)
      end
  end.

(** [do]: [currentAttempt] and [responseStatusCode] start at 0.  The loop
    runs at most [max 1 RetryCount] times. *)
Definition do (c : Client) : option (DoResult D) :=
  doLoop (S (Z.to_nat (retryCount c))) 0 0 [] c.
End Do.

(** ** Request construction and rediscovery *)

Definition CallOption := Request -> option error.

Record EndpointDescription := mkEndpointDescription {
  ReadableLocations : list CosmosEndpoint;
  WritableLocations : list CosmosEndpoint
}.

(** One iteration of the loop that moves the preferred location to the
    front: [locations] is the list of the discovery response, [current] the
    list stored in the client so far. *)
Definition preferStep (prefLoc : string) (locations : list CosmosEndpoint)
    (current : list CosmosEndpoint) (i : nat) : list CosmosEndpoint :=
  match locations !! i with
  | Some loc =>
      if String.eqb (EndpointName loc) prefLoc then
        (([] ++ [loc]) ++ take i locations) ++ drop (S i) locations
      else current
  | None => current
  end.

(** The stored list: the response's list as a whole, then the loop. *)
Definition preferredFirst (prefLoc : string) (locations : list CosmosEndpoint)
  : list CosmosEndpoint :=
  foldl (preferStep prefLoc locations) locations (seq 0 (length locations)).

Section Requests.
(** [r.DefaultHeaders(masterKey)] and [http.NewRequest(method, url, body)]
    belong to the plumbing around the engine. *)
Variable DefaultHeaders : string -> Request -> option error.
Variable NewRequest : string -> string -> error + Request.

Fixpoint applyOpts (opts : list CallOption) (r : Request) : option error :=
  match opts with
  | [] => None
  | opt :: opts =>
      match opt r with
      | Some err => Some err
      | None => applyOpts opts r
      end
  end.

Definition apply (c : Client) (r : Request) (opts : list CallOption)
  : option error :=
  match DefaultHeaders (MasterKey (Config c)) r with
  | Some err => Some err
  | None => applyOpts opts r
  end.

(** [method]: select an endpoint for the verb, build the request against
    its URL, run [do] on that endpoint.  [nowSelect] is the clock read by
    the purge, [nowRetry] the clock read by the retry policy. *)
Definition method {D : Type} (nowSelect nowRetry : Z) (transport : Transport)
    (meth link : string) (validator : statusCodeValidatorFunc)
    (ret : option (Decoder D)) (opts : list CallOption) (c : Client)
  : option (DoResult D) :=
  let endpointType :=
    if String.eqb meth MethodGet then EndpointType_ReadOnly
    else EndpointType_ReadWrite in
  let '(c, endpoint) := getCosmosEndpoint nowSelect endpointType c in
  match deref c endpoint with
  | None => None
  | Some e =>
      let queryURL := String.append (EndpointURL e) (String.append "/" link) in
      match NewRequest meth queryURL with
      | inl err => Some (mkDoResult c None (Some err) None [])
      | inr req =>
          match apply c req opts with
          | Some err => Some (mkDoResult c None (Some err) None [])
          | None => do nowRetry transport req validator ret endpoint c
          end
      end
  end.

(** [GetRegionalEndpoints]: a GET on the root of the default endpoint, run
    by [do] on the default endpoint; the two location lists are replaced
    only past the error check.  The pooled buffer, [ResourceRequest] and
    [QueryHeaders] only shape the request and are left out. *)
Definition GetRegionalEndpoints (now : Z) (transport : Transport)
    (readJson : Decoder EndpointDescription) (c : Client)
  : option (Client * option error) :=
  match NewRequest MethodGet
          (String.append (EndpointURL (DefaultEndpoint c)) "/") with
  | inl err => Some (c, Some err)
  | inr req =>
      match apply c req [] with
      | Some err => Some (c, Some err)
      | None =>
          match do now transport req (expectStatusCode StatusOK)
                  (Some readJson) PtrDefault c with
          | None => None
          | Some res =>
              let c := res_client res in
              match res_err res with
              | Some err => Some (c, Some err)
              | None =>
                  let endpointResponseBody :=
                    default (mkEndpointDescription [] []) (res_data res) in
                  let prefLoc :=
                    PreferredLocation (RegionalOptions (Config c)) in
                  Some (mkClient (Config c) (DefaultEndpoint c)
                          (preferredFirst prefLoc
                             (ReadableLocations endpointResponseBody))
                          (preferredFirst prefLoc
                             (WritableLocations endpointResponseBody)),
                        None)
              end
          end
      end
  end.

(** ** Operations on a client, in sequence *)

Inductive Op :=
| OpMark (now : Z) (endpoint : EndpointPtr)
| OpPurge (now : Z)
| OpSelect (now : Z) (endpointType : EndpointType)
| OpDo (D : Type) (now : Z) (transport : Transport) (r : Request)
    (validator : statusCodeValidatorFunc) (data : option (Decoder D))
    (endpoint : EndpointPtr)
| OpMethod (D : Type) (nowSelect nowRetry : Z) (transport : Transport)
    (meth link : string) (validator : statusCodeValidatorFunc)
    (ret : option (Decoder D)) (opts : list CallOption).

Definition step (op : Op) (c : Client) : option Client :=
  match op with
  | OpMark now endpoint => Some (markEndpointUnavailable now endpoint c)
  | OpPurge now => Some (purgeStaleEndpointUnavailability now c)
  | OpSelect now endpointType => Some (getCosmosEndpoint now endpointType c).1
  | OpDo D now transport r validator data endpoint =>
      res_client <$> do now transport r validator data endpoint c
  | OpMethod D nowSelect nowRetry transport meth link validator ret opts =>
      res_client <$>
        method nowSelect nowRetry transport meth link validator ret opts c
  end.

Fixpoint run (ops : list Op) (c : Client) : option Client :=
  match ops with
  | [] => Some c
  | op :: ops =>
      match step op c with
      | Some c => run ops c
      | None => None
      end
  end.
End Requests.

(** ** Vocabulary of the statements *)

(** What the purge does to one cell. *)
Definition purgeOne (now threshold : Z) (e : CosmosEndpoint) : CosmosEndpoint :=
  if IsUnavailable e && stale now threshold e then released e else e.

(** The happy path of [do]: no transport error and an accepted status. *)
Definition happy (validator : statusCodeValidatorFunc) (rt : RoundTrip) : bool :=
  match rt with
  | Responded resp => validator (StatusCode resp)
  | _ => false
  end.

(** [responseStatusCode] after a failed attempt: the status of the response
    when there is one, the previous value otherwise. *)
Definition statusAfter (rt : RoundTrip) (responseStatusCode : Z) : Z :=
  match rt_resp rt with
  | Some resp => StatusCode resp
  | None => responseStatusCode
  end.

(** [err] after a failed attempt. *)
Definition errorAfter (validator : statusCodeValidatorFunc) (rt : RoundTrip)
  : option error :=
  match rt_resp rt with
  | Some resp =>
      if validator (StatusCode resp) then rt_err rt
      else Some (RequestError (Body resp))
  | None => rt_err rt
  end.

(** What [do] returns on the happy path. *)
Definition succeeded {D : Type} (data : option (Decoder D)) (resp : HttpResponse)
    (sent : list Request) (c : Client) : DoResult D :=
  match data with
  | None => mkDoResult c None None None sent
  | Some readJson =>
      mkDoResult c (Some (mkResponse (Header resp))) (readJson (Body resp)).2
        (Some (readJson (Body resp)).1) sent
  end.

(** The first eligible cell of a location list, and the absence of one. *)
Definition FirstAvailable (locs : list CosmosEndpoint) (i : nat) : Prop :=
  (exists e, locs !! i = Some e /\ IsUnavailable e = false) /\
  (forall j e, j < i -> locs !! j = Some e -> IsUnavailable e = true).

Definition NoneAvailable (locs : list CosmosEndpoint) : Prop :=
  forall i e, locs !! i = Some e -> IsUnavailable e = true.

(** The registry invariant: a default endpoint is never quarantined. *)
Definition DefaultNeverQuarantined (c : Client) : Prop :=
  forall p e, deref c p = Some e ->
    IsDefaultEndpoint e = true -> IsUnavailable e = false.

(** Go's [int] holds the configured retry count. *)
Definition WellTyped (c : Client) : Prop := Int64.in_range (retryCount c).

(** ** Sample registry *)

Definition globalEndpoint : CosmosEndpoint :=
  mkCosmosEndpoint "Global" "https://acct.documents.azure.com" true false 0.
Definition westEurope : CosmosEndpoint :=
  mkCosmosEndpoint "West Europe" "https://acct-westeurope.documents.azure.com"
    false false 0.
Definition eastUS : CosmosEndpoint :=
  mkCosmosEndpoint "East US" "https://acct-eastus.documents.azure.com"
    false false 0.

Definition sampleConfig (retries cooldown : Z) : ConfigT :=
  mkConfig "key" (mkRetryOptions retries cooldown)
    (mkRegionalOptions "East US" true).

(** Three retries, a cooldown of ten seconds, two regions. *)
Definition sampleClient : Client :=
  mkClient (sampleConfig 3 10) globalEndpoint [westEurope; eastUS]
    [westEurope; eastUS].

(** The same registry with West Europe quarantined at time 100. *)
Definition degradedClient : Client :=
  mkClient (sampleConfig 3 10) globalEndpoint
    [quarantined 100 westEurope; eastUS] [westEurope; eastUS].

Definition sampleRequest : Request :=
  mkRequest "GET" "https://acct-westeurope.documents.azure.com/dbs".

(** A transport that answers every attempt with the given status. *)
Definition alwaysStatus (status : Z) : Transport :=
  λ _ _, Responded (mkHttpResponse status [] "{}").

(** Plumbing that never fails: [http.NewRequest] builds the request and the
    default headers are accepted. *)
Definition plainNewRequest : string -> string -> error + Request :=
  λ meth url, inr (mkRequest meth url).
Definition plainDefaultHeaders : string -> Request -> option error :=
  λ _ _, None.

(** A decoder of discovery responses that always finds the two regions. *)
Definition sampleReadJson : Decoder EndpointDescription :=
  λ _, (mkEndpointDescription [westEurope; eastUS] [westEurope; eastUS], None).

(** The sample registry with no retry budget. *)
Definition noRetryClient : Client :=
  mkClient (sampleConfig 0 10) globalEndpoint [westEurope; eastUS]
    [westEurope; eastUS].

(** What every operation of the engine guarantees between the registry
    before ([c]) and after ([c']): the configuration is kept, the invariant
    is kept, and a default endpoint flagged as such is not written. *)
Definition Preserved (c c' : Client) : Prop :=
  Config c' = Config c
  /\ (DefaultNeverQuarantined c -> DefaultNeverQuarantined c')
  /\ (IsDefaultEndpoint (DefaultEndpoint c) = true ->
      DefaultEndpoint c' = DefaultEndpoint c).

(** The default endpoint answers 500 to a whole call of [do], then is
    quarantined by hand, then endpoints are selected and purged. *)
Definition sampleOps : list Op :=
  [ OpDo unit 50 (alwaysStatus 500) sampleRequest (expectStatusCode StatusOK)
      None PtrDefault;
    OpMark 60 PtrDefault;
    OpMethod unit 70 71 (alwaysStatus 503) "GET" "dbs"
      (expectStatusCode StatusOK) None [];
    OpSelect 75 EndpointType_ReadWrite;
    OpPurge 80 ].

(** ** The verbs built on [method] and [do] *)

Definition StatusNoContent : Z := 204.
Definition MethodDelete : string := "DELETE".
Definition MethodPost : string := "POST".

Section Verbs.
Variable DefaultHeaders : string -> Request -> option error.
Variable NewRequest : string -> string -> error + Request.

(** [Read]: a GET that expects 200.  The pooled buffer is plumbing. *)
Definition Read {D : Type} (nowSelect nowRetry : Z) (transport : Transport)
    (link : string) (ret : option (Decoder D)) (opts : list CallOption)
    (c : Client) : option (DoResult D) :=
  method DefaultHeaders NewRequest nowSelect nowRetry transport MethodGet link
    (expectStatusCode StatusOK) ret opts c.

(** [Delete]: a DELETE that expects 204, with no destination ([nil]). *)
Definition Delete (nowSelect nowRetry : Z) (transport : Transport)
    (link : string) (opts : list CallOption) (c : Client)
  : option (DoResult unit) :=
  method DefaultHeaders NewRequest nowSelect nowRetry transport MethodDelete
    link (expectStatusCode StatusNoContent) None opts c.

(** [Query]: [encode] is what encoding the query into the buffer returned;
    then a POST against the endpoint selected for reading. *)
Definition Query {D : Type} (encode : option error) (nowSelect nowRetry : Z)
    (transport : Transport) (link : string) (ret : option (Decoder D))
    (opts : list CallOption) (c : Client) : option (DoResult D) :=
  match encode with
  | Some err => Some (mkDoResult c None (Some err) None [])
  | None =>
      let '(c, endpoint) :=
        getCosmosEndpoint nowSelect EndpointType_ReadOnly c in
      match deref c endpoint with
      | None => None
      | Some e =>
          let queryURL :=
            String.append (EndpointURL e) (String.append "/" link) in
          match NewRequest MethodPost queryURL with
          | inl err => Some (mkDoResult c None (Some err) None [])
          | inr req =>
              match apply DefaultHeaders c req opts with
              | Some err => Some (mkDoResult c None (Some err) None [])
              | None =>
                  do nowRetry transport req (expectStatusCode StatusOK) ret
                    endpoint c
              end
          end
      end
  end.
End Verbs.

(** ** The client before health tracking (client.go) *)

Module Legacy.

(** Modelled from the spec: [EndpointLocation] and [Config] are declared
    outside the files at hand; the records have the fields the code reads. *)
Record EndpointLocation := mkEndpointLocation {
  EndpointName : string;
  EndpointURL : string
}.

Record ConfigT := mkConfig {
  MasterKey : string;
  PreferredLocation : string;
  UseMultipleWriteLocations : bool
}.

Record Client := mkClient {
  Url : string;
  Config : ConfigT;
  ReadLocations : list EndpointLocation;
  WriteLocations : list EndpointLocation
}.

(** [getEndpointURL]: the first location of the list, whatever its health;
    [first :: _] is [len(locs) > 0] with [locs[0]]. *)
Definition getEndpointURL (endpointType : EndpointType) (c : Client) : string :=
  match endpointType with
  | EndpointType_ReadOnly =>
      match ReadLocations c with
      | first :: _ => EndpointURL first
      | [] => Url c
      end
  | EndpointType_ReadWrite =>
      match WriteLocations c with
      | first :: _ =>
          if UseMultipleWriteLocations (Config c) then EndpointURL first
          else Url c
      | [] => Url c
      end
  end.

(** [do]: one attempt, no retry; the results are the response, the error
    and the value decoded into the destination. *)
Definition do {D : Type} (transport : Request -> RoundTrip) (r : Request)
    (validator : statusCodeValidatorFunc) (data : option (Decoder D))
  : option Response * option error * option D :=
  match transport r with
  | Failed err | FailedWithResponse _ err => (None, Some err, None)
  | Responded resp =>
      if negb (validator (StatusCode resp)) then
        (None, Some (RequestError (Body resp)), None)
      else
        match data with
        | None => (None, None, None)
        | Some readJson =>
            let '(d, err) := readJson (Body resp) in
            (Some (mkResponse (Header resp)), err, Some d)
        end
  end.

End Legacy.

(** The registry of a client as the earlier client sees it: the URL of the
    default endpoint and the names and URLs of the locations. *)
Definition legacyLocation (e : CosmosEndpoint) : Legacy.EndpointLocation :=
  Legacy.mkEndpointLocation (EndpointName e) (EndpointURL e).

Definition legacyOf (c : Client) : Legacy.Client :=
  Legacy.mkClient (EndpointURL (DefaultEndpoint c))
    (Legacy.mkConfig (MasterKey (Config c))
       (PreferredLocation (RegionalOptions (Config c)))
       (UseMultipleWriteLocations (RegionalOptions (Config c))))
    (legacyLocation <$> ReadLocations c)
    (legacyLocation <$> WriteLocations c).

(** The location list consulted for an endpoint type. *)
Definition locationsOf (endpointType : EndpointType) (c : Client)
  : list CosmosEndpoint :=
  match endpointType with
  | EndpointType_ReadOnly => ReadLocations c
  | EndpointType_ReadWrite => WriteLocations c
  end.

(** A status the retry policy retries. *)
Definition retryable (statusCode : Z) : Prop :=
  ~ (400 <= statusCode <= 413)%Z.

(** An attempt that fails with a retryable status, if it has one. *)
Definition failsRetryably (validator : statusCodeValidatorFunc)
    (rt : RoundTrip) : Prop :=
  happy validator rt = false
  /\ forall resp, rt_resp rt = Some resp -> retryable (StatusCode resp).

(** ** More sample data *)

(** A transport that answers 503 to the first [n] attempts and 200 after. *)
Definition failsFirst (n : Z) : Transport :=
  λ attempt _,
    if (attempt <=? n)%Z then Responded (mkHttpResponse 503 [] "{}")
    else Responded (mkHttpResponse 200 [] "{}").

Definition northEurope : CosmosEndpoint :=
  mkCosmosEndpoint "North Europe" "https://acct-northeurope.documents.azure.com"
    false false 0.

(** The sample registry with multiple write locations switched off. *)
Definition singleWriteClient : Client :=
  mkClient (mkConfig "key" (mkRetryOptions 3 10)
              (mkRegionalOptions "East US" false))
    globalEndpoint [westEurope; eastUS] [westEurope; eastUS].

(** [http.NewRequest] refusing every request. *)
Definition failingNewRequest : string -> string -> error + Request :=
  λ _ _, inl (OtherError "invalid method").

(** * Properties *)

(** ** Machine integers *)

Lemma Int64_wrap_in_range z : Int64.in_range z -> Int64.wrap z = z.
Proof.
  unfold Int64.in_range, Int64.wrap, Int64.min_int, Int64.max_int, Int64.modulus.
  intros H. rewrite Z.mod_small; lia.
Qed.

Lemma Int64_sub_in_range a b : Int64.in_range (a - b) -> Int64.sub a b = (a - b)%Z.
Proof. apply Int64_wrap_in_range. Qed.

Lemma Int64_add_in_range a b : Int64.in_range (a + b) -> Int64.add a b = (a + b)%Z.
Proof. apply Int64_wrap_in_range. Qed.

(** ** The purge as a pointwise map *)

Lemma purgeStep_insert now threshold locs i e :
  locs !! i = Some e ->
  purgeStep now threshold locs i = <[i := purgeOne now threshold e]> locs.
Proof.
  intros Hi. unfold purgeStep, purgeOne. rewrite Hi.
  destruct (IsUnavailable e); simpl;
    [destruct (stale now threshold e)|]; try done;
    symmetry; by apply list_insert_id.
Qed.

Lemma purge_prefix now threshold locs n :
  n <= length locs ->
  foldl (purgeStep now threshold) locs (seq 0 n)
  = (purgeOne now threshold <$> take n locs) ++ drop n locs.
Proof.
  induction n as [|n IH]; intros Hn.
  - by rewrite take_0, drop_0.
  - rewrite seq_S, foldl_app, IH by lia. simpl.
    destruct (lookup_lt_is_Some_2 locs n) as [e He]; [lia|].
    assert (Hlen : length (purgeOne now threshold <$> take n locs) = n)
      by (rewrite length_fmap, length_take; lia).
    rewrite (purgeStep_insert _ _ _ _ e).
    + rewrite insert_app_r_alt by lia. rewrite Hlen, Nat.sub_diag.
      rewrite (drop_S _ _ _ He). simpl.
      rewrite (take_S_r _ _ _ He), fmap_app. simpl.
      by rewrite <- app_assoc.
    + rewrite lookup_app_r by lia. rewrite Hlen, Nat.sub_diag.
      by rewrite lookup_drop, Nat.add_0_r.
Qed.

Lemma purgeLocations_fmap now threshold locs :
  purgeLocations now threshold locs = purgeOne now threshold <$> locs.
Proof.
  unfold purgeLocations. rewrite purge_prefix by lia.
  by rewrite firstn_all, drop_all, app_nil_r.
Qed.

Lemma purgeOne_idem now threshold e :
  purgeOne now threshold (purgeOne now threshold e) = purgeOne now threshold e.
Proof.
  unfold purgeOne.
  destruct (IsUnavailable e) eqn:Hu; simpl; [|by rewrite Hu].
  destruct (stale now threshold e) eqn:Hs; simpl; [done|].
  by rewrite Hu, Hs.
Qed.

Lemma purgeOne_available now threshold e :
  IsUnavailable e = false -> purgeOne now threshold e = e.
Proof. intros H. unfold purgeOne. by rewrite H. Qed.

Lemma purgeOne_default now threshold e :
  IsDefaultEndpoint (purgeOne now threshold e) = IsDefaultEndpoint e.
Proof. unfold purgeOne. by destruct (_ && _). Qed.

Lemma purgeOne_unavailable now threshold e :
  IsUnavailable (purgeOne now threshold e) = true -> IsUnavailable e = true.
Proof.
  unfold purgeOne. destruct (IsUnavailable e) eqn:Hu; [done|].
  simpl. by rewrite Hu.
Qed.

Lemma deref_purge now c p :
  deref (purgeStaleEndpointUnavailability now c) p
  = match p with
    | PtrDefault => Some (DefaultEndpoint c)
    | _ => purgeOne now (unavailableTimeSec c) <$> deref c p
    end.
Proof.
  destruct p; simpl; [done| |]; by rewrite purgeLocations_fmap, list_lookup_fmap.
Qed.

(** ** The retry policy *)

Lemma shouldRetry_true now statusCode currentAttempt p c :
  (shouldRetry now statusCode currentAttempt p c).1 = true ->
  (shouldRetry now statusCode currentAttempt p c).2 = c
  /\ (currentAttempt < retryCount c)%Z
  /\ ~ (400 <= statusCode <= 413)%Z.
Proof.
  unfold shouldRetry.
  destruct (_ && _) eqn:Hr; [done|].
  destruct (currentAttempt <? retryCount c)%Z eqn:Hlt.
  - intros _. repeat split; [lia|]. intros [? ?].
    apply andb_false_iff in Hr as [?%Z.leb_gt|?%Z.leb_gt]; lia.
  - destruct ((currentAttempt =? retryCount c)%Z && _); simpl; discriminate.
Qed.

Lemma shouldRetry_client now statusCode currentAttempt p c :
  (shouldRetry now statusCode currentAttempt p c).2 = c
  \/ (currentAttempt = retryCount c
      /\ exists e, deref c p = Some e /\ IsDefaultEndpoint e = false
           /\ (shouldRetry now statusCode currentAttempt p c).2
              = assign c p (quarantined now e)).
Proof.
  unfold shouldRetry.
  destruct (_ && _); [by left|].
  destruct (currentAttempt <? retryCount c)%Z; [by left|].
  destruct (currentAttempt =? retryCount c)%Z eqn:Heq; simpl; [|by left].
  unfold markEndpointUnavailable.
  destruct (deref c p) as [e|] eqn:Hp; simpl; [|by left].
  destruct (IsDefaultEndpoint e) eqn:Hd; simpl; [by left|].
  right. split; [lia|]. exists e. by rewrite Hd.
Qed.

(** ** One iteration of the loop of [do] *)

Section DoFacts.
Context {D : Type}.
Variable now : Z.
Variable transport : Transport.
Variable r : Request.
Variable validator : statusCodeValidatorFunc.
Variable data : option (Decoder D).
Variable endpoint : EndpointPtr.

Local Abbreviation loop := (doLoop (D:=D) now transport r validator data endpoint).

Lemma doLoop_unfold fuel currentAttempt responseStatusCode sent c :
  loop (S fuel) currentAttempt responseStatusCode sent c
  = let attempt := Int64.add currentAttempt 1 in
    let rt := transport attempt r in
    if happy validator rt then
      match rt_resp rt with
      | Some resp => Some (succeeded data resp (sent ++ [r]) c)
      | None => None
      end
    else
      let status := statusAfter rt responseStatusCode in
      let verdict := shouldRetry now status attempt endpoint c in
      if verdict.1 then loop fuel attempt status (sent ++ [r]) verdict.2
      else Some (mkDoResult verdict.2 None (errorAfter validator rt) None
                   (sent ++ [r])).
Proof.
  simpl. unfold happy, statusAfter, errorAfter, succeeded.
  destruct (transport (Int64.add currentAttempt 1) r) as [resp|err|resp err];
    simpl.
  - destruct (validator (StatusCode resp)).
    + destruct data as [readJson|]; [|done]. by destruct (readJson (Body resp)).
    + by destruct (shouldRetry _ _ _ _ _) as [[] ?].
  - by destruct (shouldRetry _ _ _ _ _) as [[] ?].
  - destruct (validator (StatusCode resp));
      by destruct (shouldRetry _ _ _ _ _) as [[] ?].
Qed.

(** The registry after [do]: untouched, or with the endpoint of the call
    quarantined. *)
Lemma doLoop_client fuel currentAttempt responseStatusCode sent c res :
  loop fuel currentAttempt responseStatusCode sent c = Some res ->
  res_client res = c
  \/ exists e, deref c endpoint = Some e /\ IsDefaultEndpoint e = false
       /\ res_client res = assign c endpoint (quarantined now e).
Proof.
  revert currentAttempt responseStatusCode sent.
  induction fuel as [|fuel IH]; intros a s sent; [done|].
  rewrite doLoop_unfold. cbv zeta.
  destruct (happy validator _).
  - destruct (rt_resp _); [|done]. intros [= <-]. left.
    unfold succeeded. by destruct data.
  - set (v := shouldRetry _ _ _ _ _).
    destruct (v.1) eqn:Hv; subst v.
    + apply shouldRetry_true in Hv as (-> & _ & _). apply IH.
    + intros [= <-]. simpl.
      destruct (shouldRetry_client now (statusAfter (transport (Int64.add a 1) r) s)
                  (Int64.add a 1) endpoint c) as [?|[_ ?]]; [by left|by right].
Qed.

(** The loop returns: [do] gives it enough fuel. *)
Lemma doLoop_returns fuel currentAttempt responseStatusCode sent c :
  WellTyped c ->
  (0 <= currentAttempt < Int64.max_int)%Z ->
  Z.to_nat (retryCount c - currentAttempt) < fuel ->
  is_Some (loop fuel currentAttempt responseStatusCode sent c).
Proof.
  intros Hc. revert currentAttempt responseStatusCode sent.
  induction fuel as [|fuel IH]; intros a s sent Ha Hfuel; [lia|].
  rewrite doLoop_unfold. cbv zeta.
  assert (Hadd : Int64.add a 1 = (a + 1)%Z).
  { apply Int64_add_in_range. unfold Int64.in_range, Int64.min_int in *. lia. }
  destruct (happy validator _) eqn:Hh.
  - destruct (transport _ r); simpl in *; by eauto.
  - set (v := shouldRetry _ _ _ _ _).
    destruct (v.1) eqn:Hv; subst v; [|by eauto].
    apply shouldRetry_true in Hv as (-> & Hlt & _). rewrite Hadd in *.
    apply IH; [unfold WellTyped, Int64.in_range in Hc; lia | lia].
Qed.

Lemma do_returns c :
  WellTyped c -> is_Some (do now transport r validator data endpoint c).
Proof.
  intros Hc. apply doLoop_returns; [done| |].
  - unfold Int64.max_int. lia.
  - rewrite Z.sub_0_r. lia.
Qed.
End DoFacts.

(** ** Retry decisions *)

(** C1: for every status code in [400, 413], whatever the attempt count and
    the endpoint, [shouldRetry] answers false and leaves the registry alone;
    an attempt of [do] that receives such a status (rejected by the
    validator) is the last one, and the error decoded from its response is
    returned. *)
Theorem shouldRetry_invalid_request_never_retried (now statusCode : Z) :
  (400 <= statusCode <= 413)%Z ->
  (forall currentAttempt currentEndpoint c,
      shouldRetry now statusCode currentAttempt currentEndpoint c = (false, c))
  /\ (forall (D : Type) transport r validator (data : option (Decoder D))
        endpoint fuel currentAttempt responseStatusCode sent c resp,
        rt_resp (transport (Int64.add currentAttempt 1) r) = Some resp ->
        StatusCode resp = statusCode ->
        validator statusCode = false ->
        doLoop now transport r validator data endpoint (S fuel) currentAttempt
          responseStatusCode sent c
        = Some (mkDoResult c None (Some (RequestError (Body resp))) None
                  (sent ++ [r]))).
Proof.
  intros Hs.
  assert (Hno : forall a p c, shouldRetry now statusCode a p c = (false, c)).
  { intros a p c. unfold shouldRetry.
    destruct (400 <=? statusCode)%Z eqn:H1; [|lia].
    destruct (statusCode <=? 413)%Z eqn:H2; [done|lia]. }
  split; [exact Hno|].
  intros D transport r validator data endpoint fuel a s sent c resp Hrt <- Hv.
  rewrite doLoop_unfold. cbv zeta.
  unfold happy, statusAfter, errorAfter. 
  destruct (transport (Int64.add a 1) r) as [resp'|err|resp' err];
    simpl in Hrt; simplify_eq; simpl; rewrite Hv, Hno; done.
Qed.

Lemma shouldRetry_invalid_request_never_retried_witness :
  shouldRetry 0 404 1 (PtrRead 0) sampleClient = (false, sampleClient)
  /\ do (D:=unit) 0 (alwaysStatus 404) sampleRequest (expectStatusCode StatusOK)
       None (PtrRead 0) sampleClient
     = Some (mkDoResult sampleClient None (Some (RequestError "{}")) None
               [sampleRequest]).
Proof.
  destruct (shouldRetry_invalid_request_never_retried 0 404) as [H1 H2];
    [lia|].
  split; [apply H1|].
  apply (H2 unit (alwaysStatus 404) sampleRequest (expectStatusCode StatusOK)
           None (PtrRead 0) 3 0%Z 0%Z [] sampleClient
           (mkHttpResponse 404 [] "{}")); reflexivity.
Defined.

(** C2: for every status code outside [400, 413] (0, the value when no
    response was ever received, included) and every endpoint, [shouldRetry]
    answers true exactly when the attempt number is below [RetryCount], and
    false when it is at or above it. *)
Theorem shouldRetry_bounded_by_retryCount
    (now statusCode currentAttempt : Z) (currentEndpoint : EndpointPtr)
    (c : Client) :
  ~ (400 <= statusCode <= 413)%Z ->
  ((shouldRetry now statusCode currentAttempt currentEndpoint c).1 = true
   <-> (currentAttempt < retryCount c)%Z)
  /\ ((retryCount c <= currentAttempt)%Z ->
      (shouldRetry now statusCode currentAttempt currentEndpoint c).1 = false).
Proof.
  intros Hs. unfold shouldRetry.
  destruct ((400 <=? statusCode)%Z && (statusCode <=? 413)%Z) eqn:Hr.
  { apply andb_true_iff in Hr as [?%Z.leb_le ?%Z.leb_le]. lia. }
  destruct (currentAttempt <? retryCount c)%Z eqn:Hlt.
  - split; [split; [lia|done]|lia].
  - destruct ((currentAttempt =? retryCount c)%Z && _); simpl;
      (split; [split; [discriminate|lia]|done]).
Qed.

Lemma shouldRetry_bounded_by_retryCount_witness :
  ((shouldRetry 0 0 2 (PtrRead 0) sampleClient).1 = true
   <-> (2 < retryCount sampleClient)%Z)
  /\ ((retryCount sampleClient <= 2)%Z ->
      (shouldRetry 0 0 2 (PtrRead 0) sampleClient).1 = false).
Proof.
  apply (shouldRetry_bounded_by_retryCount 0 0 2 (PtrRead 0) sampleClient).
  lia.
Defined.

(** ** Endpoint selection *)

Lemma firstIndex_Some ok k locs j :
  (exists e, locs !! j = Some e /\ ok e = true) ->
  (forall j' e, j' < j -> locs !! j' = Some e -> ok e = false) ->
  firstIndex ok k locs = Some (k + j).
Proof.
  revert k j. induction locs as [|x locs IH]; intros k j [e [He Hok]] Hbefore.
  - by rewrite lookup_nil in He.
  - destruct j as [|j]; simpl in *.
    + simplify_eq. rewrite Hok. f_equal. lia.
    + rewrite (Hbefore 0 x) by (done || lia).
      rewrite (IH (S k) j); [f_equal; lia|by eauto|].
      intros j' e' Hj' He'. apply (Hbefore (S j') e'); [lia|done].
Qed.

Lemma firstIndex_None ok k locs :
  (forall i e, locs !! i = Some e -> ok e = false) ->
  firstIndex ok k locs = None.
Proof.
  revert k. induction locs as [|x locs IH]; intros k Hall; [done|].
  simpl. rewrite (Hall 0 x) by done. apply IH.
  intros i e He. by apply (Hall (S i) e).
Qed.

(** C4: [getCosmosEndpoint] first runs the stale-quarantine purge; for
    ReadOnly it then returns the first cell of the read list that is not
    unavailable and the default endpoint when there is none; for ReadWrite
    it does the same over the write list when [UseMultipleWriteLocations]
    is set, and returns the default endpoint when the flag is unset or no
    cell is eligible. *)
Theorem getCosmosEndpoint_selects_first_available (now : Z) (c : Client) :
  let purged := purgeStaleEndpointUnavailability now c in
  let multi := UseMultipleWriteLocations (RegionalOptions (Config c)) in
  (forall endpointType, (getCosmosEndpoint now endpointType c).1 = purged)
  /\ (forall i, FirstAvailable (ReadLocations purged) i ->
        (getCosmosEndpoint now EndpointType_ReadOnly c).2 = PtrRead i)
  /\ (NoneAvailable (ReadLocations purged) ->
        (getCosmosEndpoint now EndpointType_ReadOnly c).2 = PtrDefault)
  /\ (forall i, multi = true -> FirstAvailable (WriteLocations purged) i ->
        (getCosmosEndpoint now EndpointType_ReadWrite c).2 = PtrWrite i)
  /\ (multi = false \/ NoneAvailable (WriteLocations purged) ->
        (getCosmosEndpoint now EndpointType_ReadWrite c).2 = PtrDefault).
Proof.
  intros purged multi. unfold getCosmosEndpoint. fold purged.
  change (UseMultipleWriteLocations (RegionalOptions (Config purged))) with multi.
  repeat split.
  - intros []; by destruct (firstIndex _ _ _).
  - intros i [[e [He Hav]] Hbefore].
    rewrite (firstIndex_Some _ 0 _ i); [done| |].
    + exists e. by rewrite Hav.
    + intros j e' Hj He'. by rewrite (Hbefore j e').
  - intros Hnone. rewrite firstIndex_None; [done|].
    intros i e He. by rewrite (Hnone i e).
  - intros i Hmulti [[e [He Hav]] Hbefore].
    rewrite (firstIndex_Some _ 0 _ i); [done| |].
    + exists e. by rewrite Hav, Hmulti.
    + intros j e' Hj He'. by rewrite (Hbefore j e').
  - intros Hno. rewrite firstIndex_None; [done|].
    intros i e He. destruct Hno as [->|Hnone].
    + apply andb_false_r.
    + by rewrite (Hnone i e).
Qed.

Lemma getCosmosEndpoint_selects_first_available_witness :
  getCosmosEndpoint 105 EndpointType_ReadOnly degradedClient
  = (degradedClient, PtrRead 1).
Proof.
  pose proof (getCosmosEndpoint_selects_first_available 105 degradedClient)
    as (Hpurge & Hread & _).
  rewrite (surjective_pairing (getCosmosEndpoint _ _ _)).
  rewrite Hpurge. rewrite (Hread 1%nat).
  - reflexivity.
  - split.
    + exists eastUS. split; reflexivity.
    + intros [|[|j]] e Hj He; [|lia|lia].
      vm_compute in He. injection He as <-. reflexivity.
Defined.

(** ** The stale-quarantine purge *)

(** C6 as stated fails at the boundary: with a cooldown of 10 seconds, an
    endpoint quarantined at time 100 is still quarantined after a purge at
    time 110 = 100 + 10. *)
Lemma purge_at_cooldown_boundary_keeps_quarantine :
  unavailableTimeSec degradedClient = 10%Z
  /\ deref degradedClient (PtrRead 0) = Some (quarantined 100 westEurope)
  /\ (110 >= 100 + 10)%Z
  /\ deref (purgeStaleEndpointUnavailability 110 degradedClient) (PtrRead 0)
     = Some (quarantined 100 westEurope)
  /\ IsUnavailable (quarantined 100 westEurope) = true.
Proof. repeat split; (reflexivity || lia). Qed.

(** C6 (amended): for a cell of the read or write list quarantined at time T,
    with cooldown C and a clock for which [now - T] fits in an int64, a purge
    at a time strictly greater than T + C resets [IsUnavailable] to false and
    the timestamp to 0, and a purge at a time less than or equal to T + C
    leaves the cell as it is. *)
Theorem purge_restores_strictly_after_cooldown
    (now : Z) (c : Client) (p : EndpointPtr) (e : CosmosEndpoint) :
  p <> PtrDefault ->
  deref c p = Some e ->
  IsUnavailable e = true ->
  Int64.in_range (now - UnavailableTimestamp e) ->
  ((now > UnavailableTimestamp e + unavailableTimeSec c)%Z ->
     deref (purgeStaleEndpointUnavailability now c) p = Some (released e))
  /\ ((now <= UnavailableTimestamp e + unavailableTimeSec c)%Z ->
     deref (purgeStaleEndpointUnavailability now c) p = Some e).
Proof.
  intros Hp He Hu Hrange.
  assert (Hpurged : deref (purgeStaleEndpointUnavailability now c) p
                    = Some (purgeOne now (unavailableTimeSec c) e)).
  { rewrite deref_purge. destruct p; [done| |]; by rewrite He. }
  rewrite Hpurged. unfold purgeOne, stale.
  rewrite Hu, Int64_sub_in_range by done. simpl.
  split; intros Hnow.
  - destruct (Z.ltb_spec (unavailableTimeSec c) (now - UnavailableTimestamp e));
      [done|lia].
  - destruct (Z.ltb_spec (unavailableTimeSec c) (now - UnavailableTimestamp e));
      [lia|done].
Qed.

Lemma purge_restores_strictly_after_cooldown_witness :
  deref (purgeStaleEndpointUnavailability 111 degradedClient) (PtrRead 0)
  = Some westEurope
  /\ deref (purgeStaleEndpointUnavailability 110 degradedClient) (PtrRead 0)
     = Some (quarantined 100 westEurope).
Proof.
  split.
  - apply (purge_restores_strictly_after_cooldown 111 degradedClient (PtrRead 0)
             (quarantined 100 westEurope));
      [discriminate | reflexivity | reflexivity | vm_compute; split; discriminate
      | vm_compute; reflexivity].
  - apply (purge_restores_strictly_after_cooldown 110 degradedClient (PtrRead 0)
             (quarantined 100 westEurope));
      [discriminate | reflexivity | reflexivity | vm_compute; split; discriminate
      | vm_compute; discriminate].
Defined.

(** C10: at a fixed clock value the purge is idempotent, and it never turns
    an available cell into an unavailable one: a cell whose [IsUnavailable]
    is false before the purge is unchanged by it. *)
Theorem purge_idempotent_and_monotone (now : Z) (c : Client) :
  purgeStaleEndpointUnavailability now (purgeStaleEndpointUnavailability now c)
  = purgeStaleEndpointUnavailability now c
  /\ (forall p e, deref c p = Some e -> IsUnavailable e = false ->
        deref (purgeStaleEndpointUnavailability now c) p = Some e)
  /\ (forall p e', deref (purgeStaleEndpointUnavailability now c) p = Some e' ->
        IsUnavailable e' = true -> deref c p = Some e').
Proof.
  repeat split.
  - unfold purgeStaleEndpointUnavailability. simpl.
    change (unavailableTimeSec (mkClient _ _ _ _)) with (unavailableTimeSec c).
    rewrite !purgeLocations_fmap. f_equal;
      rewrite <- list_fmap_compose; apply list_fmap_ext;
      intros; apply purgeOne_idem.
  - intros p e He Hav. rewrite deref_purge.
    destruct p; [done| |]; rewrite He; simpl; by rewrite purgeOne_available.
  - intros p e' He' Hun. rewrite deref_purge in He'.
    destruct p; [done| |];
      (destruct (deref c _) as [e|] eqn:He; simpl in He'; [|done];
       simplify_eq; f_equal;
       pose proof (purgeOne_unavailable _ _ _ Hun) as Hu;
       unfold purgeOne in *; rewrite Hu in *; simpl in *;
       by destruct (stale now (unavailableTimeSec c) e)).
Qed.

(** ** Rediscovery *)

Lemma preferStep_other prefLoc locations current i loc :
  locations !! i = Some loc -> EndpointName loc <> prefLoc ->
  preferStep prefLoc locations current i = current.
Proof.
  intros Hi Hne. unfold preferStep. rewrite Hi.
  by apply String.eqb_neq in Hne as ->.
Qed.

Lemma preferStep_match prefLoc locations current i loc :
  locations !! i = Some loc -> EndpointName loc = prefLoc ->
  preferStep prefLoc locations current i
  = loc :: take i locations ++ drop (S i) locations.
Proof.
  intros Hi Heq. unfold preferStep. rewrite Hi.
  apply String.eqb_eq in Heq as ->. by rewrite <- app_assoc.
Qed.

(** The loop after its first [n] iterations, when the preferred location is
    the name of the entry at index [k] only. *)
Lemma prefer_prefix prefLoc locations k e n :
  locations !! k = Some e ->
  EndpointName e = prefLoc ->
  (forall j e', locations !! j = Some e' -> EndpointName e' = prefLoc -> j = k) ->
  n <= length locations ->
  foldl (preferStep prefLoc locations) locations (seq 0 n)
  = if decide (k < n) then e :: take k locations ++ drop (S k) locations
    else locations.
Proof.
  intros Hk Hname Huniq. induction n as [|n IH]; intros Hn.
  - destruct (decide (k < 0)); [lia|done].
  - rewrite seq_S, foldl_app, IH by lia. cbn [foldl Nat.add].
    destruct (lookup_lt_is_Some_2 locations n) as [x Hx]; [lia|].
    destruct (decide (EndpointName x = prefLoc)) as [Hx'|Hx'].
    + assert (n = k) as Hnk by (by eapply Huniq). subst n.
      rewrite (preferStep_match _ _ _ _ e) by done.
      destruct (decide (k < S k)); [done|lia].
    + rewrite (preferStep_other _ _ _ _ x) by done.
      assert (n <> k) by (intros ->; simplify_eq).
      destruct (decide (k < n)), (decide (k < S n)); (done || lia).
Qed.

Lemma prefer_absent prefLoc locations n :
  (forall j e, locations !! j = Some e -> EndpointName e <> prefLoc) ->
  n <= length locations ->
  foldl (preferStep prefLoc locations) locations (seq 0 n) = locations.
Proof.
  intros Hnone. induction n as [|n IH]; intros Hn; [done|].
  rewrite seq_S, foldl_app, IH by lia. simpl.
  destruct (lookup_lt_is_Some_2 locations n) as [x Hx]; [lia|].
  apply (preferStep_other _ _ _ _ x); eauto.
Qed.

(** A failed attempt always leaves an error to report. *)
Lemma errorAfter_is_Some validator rt :
  happy validator rt = false -> is_Some (errorAfter validator rt).
Proof.
  unfold happy, errorAfter.
  destruct rt as [resp|err|resp err]; simpl; [intros ->| |]; eauto.
  destruct (validator _); eauto.
Qed.

Section DoSuccess.
Context {D : Type}.
Variable now : Z.
Variable transport : Transport.
Variable r : Request.
Variable validator : statusCodeValidatorFunc.
Variable readJson : Decoder D.
Variable endpoint : EndpointPtr.

(** A call of [do] that returns no error has met an accepted response, has
    decoded its body and has left the registry untouched. *)
Lemma doLoop_success fuel currentAttempt responseStatusCode sent c res :
  doLoop now transport r validator (Some readJson) endpoint fuel
    currentAttempt responseStatusCode sent c = Some res ->
  res_err res = None ->
  res_client res = c
  /\ exists n resp, transport n r = Responded resp
       /\ validator (StatusCode resp) = true
       /\ (readJson (Body resp)).2 = None
       /\ res_data res = Some (readJson (Body resp)).1.
Proof.
  revert currentAttempt responseStatusCode sent.
  induction fuel as [|fuel IH]; intros a s sent; [done|].
  rewrite doLoop_unfold. cbv zeta.
  destruct (happy validator _) eqn:Hh.
  - destruct (transport (Int64.add a 1) r) as [resp| |] eqn:Hrt; try done.
    simpl in *. intros [= <-] Herr. simpl in *. split; [done|].
    exists (Int64.add a 1), resp. by rewrite Hrt.
  - destruct (shouldRetry _ _ _ _ _).1 eqn:Hv.
    + apply shouldRetry_true in Hv as (-> & _ & _). apply IH.
    + intros [= <-] Herr. simpl in Herr.
      apply errorAfter_is_Some in Hh as [? Hh]. congruence.
Qed.
End DoSuccess.

(** C7: when exactly one entry of a discovered location list bears the
    preferred location's name, at index k, the stored list is that entry
    followed by all the others in their original order; when no entry bears
    it, the stored list is the discovered list.  A successful
    [GetRegionalEndpoints] stores these lists for the read and the write
    locations decoded from the accepted response. *)
Theorem preferred_location_moved_to_front :
  (forall prefLoc (locations : list CosmosEndpoint) k e,
      locations !! k = Some e ->
      EndpointName e = prefLoc ->
      (forall j e', locations !! j = Some e' -> EndpointName e' = prefLoc -> j = k) ->
      preferredFirst prefLoc locations
      = e :: take k locations ++ drop (S k) locations)
  /\ (forall prefLoc (locations : list CosmosEndpoint),
      (forall j e, locations !! j = Some e -> EndpointName e <> prefLoc) ->
      preferredFirst prefLoc locations = locations)
  /\ (forall DefaultHeaders NewRequest now transport readJson c c',
      GetRegionalEndpoints DefaultHeaders NewRequest now transport readJson c
      = Some (c', None) ->
      exists req n resp,
        transport n req = Responded resp
        /\ StatusCode resp = StatusOK
        /\ let prefLoc := PreferredLocation (RegionalOptions (Config c)) in
           let body := (readJson (Body resp)).1 in
           ReadLocations c' = preferredFirst prefLoc (ReadableLocations body)
           /\ WriteLocations c'
              = preferredFirst prefLoc (WritableLocations body)).
Proof.
  repeat split.
  - intros prefLoc locations k e Hk Hname Huniq. unfold preferredFirst.
    rewrite (prefer_prefix prefLoc locations k e) by done.
    apply lookup_lt_Some in Hk.
    destruct (decide (k < length locations)); [done|lia].
  - intros prefLoc locations Hnone. by apply prefer_absent.
  - intros DefaultHeaders NewRequest now transport readJson c c'.
    unfold GetRegionalEndpoints.
    destruct (NewRequest _ _) as [err|req]; [done|].
    destruct (apply _ _ _ _); [done|].
    unfold do.
    destruct (doLoop _ _ _ _ _ _ _ _ _ _ _) as [res|] eqn:Hdo; [|done].
    destruct (res_err res) eqn:Herr; [done|].
    apply doLoop_success in Hdo as (Hc & n & resp & Hrt & Hok & _ & Hdata);
      [|done].
    rewrite Hc, Hdata. simpl. intros [= <-]. simpl.
    exists req, n, resp. repeat split; [done|].
    unfold expectStatusCode in Hok. lia.
Qed.

Lemma preferred_location_moved_to_front_witness :
  preferredFirst "East US" [westEurope; eastUS] = [eastUS; westEurope]
  /\ preferredFirst "North Europe" [westEurope; eastUS] = [westEurope; eastUS].
Proof.
  pose proof preferred_location_moved_to_front as (Hfront & Hsame & _).
  split.
  - apply (Hfront "East US" [westEurope; eastUS] 1 eastUS);
      [reflexivity | reflexivity |].
    intros [|[|j]] e' He' Hname; [|done|done].
    vm_compute in He'. injection He' as <-. discriminate Hname.
  - apply Hsame. intros [|[|j]] e He; vm_compute in He; [| |done];
      injection He as <-; discriminate.
Defined.

(** C8: [GetRegionalEndpoints] returns, and whenever it returns an error the
    read and write location lists (and the configuration) are those of
    before the call, the whole client being unchanged when the default
    endpoint carries [IsDefaultEndpoint]; the lists are replaced only when
    the call returns no error, that is after a response with status 200
    whose body was decoded. *)
Theorem GetRegionalEndpoints_failure_keeps_registry
    (DefaultHeaders : string -> Request -> option error)
    (NewRequest : string -> string -> error + Request)
    (now : Z) (transport : Transport) (readJson : Decoder EndpointDescription)
    (c : Client) :
  WellTyped c ->
  exists c' result,
    GetRegionalEndpoints DefaultHeaders NewRequest now transport readJson c
    = Some (c', result)
    /\ (forall err, result = Some err ->
          ReadLocations c' = ReadLocations c
          /\ WriteLocations c' = WriteLocations c
          /\ Config c' = Config c
          /\ (IsDefaultEndpoint (DefaultEndpoint c) = true -> c' = c))
    /\ (result = None ->
          exists req n resp, transport n req = Responded resp
            /\ StatusCode resp = StatusOK
            /\ (readJson (Body resp)).2 = None).
Proof.
  intros Hc. unfold GetRegionalEndpoints.
  destruct (NewRequest _ _) as [err|req].
  { exists c, (Some err). by repeat split. }
  destruct (apply _ _ _ _) as [err|].
  { exists c, (Some err). by repeat split. }
  destruct (do_returns now transport req (expectStatusCode StatusOK)
              (Some readJson) PtrDefault c Hc) as [res Hdo].
  rewrite Hdo. unfold do in Hdo.
  destruct (res_err res) as [err|] eqn:Herr.
  - exists (res_client res), (Some err). split; [done|]. split; [|done].
    intros _ _.
    destruct (doLoop_client _ _ _ _ _ _ _ _ _ _ _ _ Hdo)
      as [->|(e & He & Hd & ->)]; [done|].
    simpl in He. simplify_eq. repeat split. congruence.
  - eexists _, None. split; [done|]. split; [done|]. intros _.
    apply doLoop_success in Hdo as (_ & n & resp & Hrt & Hok & Hdec & _);
      [|done].
    exists req, n, resp. repeat split; [done| |done].
    unfold expectStatusCode in Hok. lia.
Qed.

Lemma GetRegionalEndpoints_failure_keeps_registry_witness :
  exists c' result,
    GetRegionalEndpoints plainDefaultHeaders plainNewRequest 0
      (alwaysStatus 503) sampleReadJson sampleClient = Some (c', result)
    /\ (forall err, result = Some err ->
          ReadLocations c' = ReadLocations sampleClient
          /\ WriteLocations c' = WriteLocations sampleClient
          /\ Config c' = Config sampleClient
          /\ (IsDefaultEndpoint (DefaultEndpoint sampleClient) = true ->
              c' = sampleClient))
    /\ (result = None ->
          exists req n resp, alwaysStatus 503 n req = Responded resp
            /\ StatusCode resp = StatusOK
            /\ (sampleReadJson (Body resp)).2 = None).
Proof.
  apply (GetRegionalEndpoints_failure_keeps_registry plainDefaultHeaders
           plainNewRequest 0 (alwaysStatus 503) sampleReadJson sampleClient).
  vm_compute. split; discriminate.
Defined.

(** ** The retry loop *)

(** An attempt answered by a response the validator rejects. *)
Lemma rejected_attempt validator rt resp responseStatusCode :
  rt_resp rt = Some resp ->
  validator (StatusCode resp) = false ->
  happy validator rt = false
  /\ statusAfter rt responseStatusCode = StatusCode resp
  /\ errorAfter validator rt = Some (RequestError (Body resp)).
Proof.
  intros Hrt Hv. unfold happy, statusAfter, errorAfter. rewrite Hrt, Hv.
  by destruct rt; simplify_eq/=.
Qed.

(** C5: with [RetryCount] = 3, a non-default endpoint and a response of
    status 503 (rejected by the validator) to every attempt, [do] hands the
    same request to the transport exactly three times, the retry policy
    leaves the registry alone after attempts 1 and 2 and quarantines the
    endpoint after attempt 3, and the caller gets the error decoded from the
    third response.  In the registry that [do] leaves, the cell of the
    endpoint has [IsUnavailable] true and [UnavailableTimestamp] equal to
    the clock of the call, with its name, URL and default flag kept, and
    every other cell and the configuration are as before. *)
Theorem do_three_attempts_then_quarantine
    {D : Type} (now : Z) (transport : Transport) (r : Request)
    (validator : statusCodeValidatorFunc) (data : option (Decoder D))
    (endpoint : EndpointPtr) (c : Client) (e : CosmosEndpoint) :
  retryCount c = 3%Z ->
  deref c endpoint = Some e ->
  IsDefaultEndpoint e = false ->
  validator 503%Z = false ->
  (forall n, (1 <= n <= 3)%Z ->
     exists resp, rt_resp (transport n r) = Some resp
                  /\ StatusCode resp = 503%Z) ->
  exists resp3,
    rt_resp (transport 3%Z r) = Some resp3
    /\ do now transport r validator data endpoint c
       = Some (mkDoResult (assign c endpoint (quarantined now e)) None
                 (Some (RequestError (Body resp3))) None [r; r; r])
    /\ shouldRetry now 503 1 endpoint c = (true, c)
    /\ shouldRetry now 503 2 endpoint c = (true, c)
    /\ shouldRetry now 503 3 endpoint c
       = (false, assign c endpoint (quarantined now e))
    /\ deref (assign c endpoint (quarantined now e)) endpoint
       = Some (quarantined now e)
    /\ (forall res,
          do now transport r validator data endpoint c = Some res ->
          deref (res_client res) endpoint
          = Some (mkCosmosEndpoint (EndpointName e) (EndpointURL e) false true
                    now)
          /\ (exists e', deref (res_client res) endpoint = Some e'
                /\ IsUnavailable e' = true
                /\ UnavailableTimestamp e' = now)
          /\ (forall q, q <> endpoint ->
                deref (res_client res) q = deref c q)
          /\ Config (res_client res) = Config c).
Proof.
  intros Hrc He Hd Hv Hall.
  assert (H1 : shouldRetry now 503 1 endpoint c = (true, c))
    by (unfold shouldRetry; rewrite Hrc; reflexivity).
  assert (H2 : shouldRetry now 503 2 endpoint c = (true, c))
    by (unfold shouldRetry; rewrite Hrc; reflexivity).
  assert (H3 : shouldRetry now 503 3 endpoint c
               = (false, assign c endpoint (quarantined now e))).
  { unfold shouldRetry, markEndpointUnavailable. rewrite Hrc, He, Hd.
    reflexivity. }
  destruct (Hall 1%Z) as (resp1 & Hr1 & Hs1); [lia|].
  destruct (Hall 2%Z) as (resp2 & Hr2 & Hs2); [lia|].
  destruct (Hall 3%Z) as (resp3 & Hr3 & Hs3); [lia|].
  assert (Hcell : deref (assign c endpoint (quarantined now e)) endpoint
                  = Some (quarantined now e)).
  { destruct endpoint as [|i|i]; simpl in *; [done| |];
      apply list_lookup_insert_eq; by eapply lookup_lt_Some. }
  assert (Hdo : do now transport r validator data endpoint c
                = Some (mkDoResult (assign c endpoint (quarantined now e)) None
                          (Some (RequestError (Body resp3))) None [r; r; r])).
  { unfold do. rewrite Hrc. change (S (Z.to_nat 3)) with 4.
    rewrite <- Hs1 in Hv.
    destruct (rejected_attempt validator _ resp1 0%Z Hr1 Hv) as (Ha1 & Hb1 & Hc1).
    rewrite Hs1, <- Hs2 in Hv.
    destruct (rejected_attempt validator _ resp2 503%Z Hr2 Hv) as (Ha2 & Hb2 & Hc2).
    rewrite Hs2, <- Hs3 in Hv.
    destruct (rejected_attempt validator _ resp3 503%Z Hr3 Hv) as (Ha3 & Hb3 & Hc3).
    rewrite doLoop_unfold. cbv zeta.
    change (Int64.add 0 1) with 1%Z. rewrite Ha1, Hb1, Hs1, H1. cbn [fst snd].
    rewrite doLoop_unfold. cbv zeta.
    change (Int64.add 1 1) with 2%Z. rewrite Ha2, Hb2, Hs2, H2. cbn [fst snd].
    rewrite doLoop_unfold. cbv zeta.
    change (Int64.add 2 1) with 3%Z. rewrite Ha3, Hb3, Hs3, H3. cbn [fst snd].
    by rewrite Hc3. }
  exists resp3. repeat split; try done.
  - rewrite Hdo in H. injection H as <-. simpl. rewrite Hcell.
    unfold quarantined. by rewrite Hd.
  - rewrite Hdo in H. injection H as <-. simpl.
    exists (quarantined now e). by rewrite Hcell.
  - rewrite Hdo in H. injection H as <-. simpl. intros q Hq.
    destruct endpoint as [|i|i], q as [|j|j]; simpl; try done;
      apply list_lookup_insert_ne; congruence.
  - rewrite Hdo in H. injection H as <-. simpl. by destruct endpoint.
Qed.

Lemma do_three_attempts_then_quarantine_witness :
  exists resp3,
    rt_resp (alwaysStatus 503 3%Z sampleRequest) = Some resp3
    /\ do (D:=unit) 50 (alwaysStatus 503) sampleRequest
         (expectStatusCode StatusOK) None (PtrRead 0) sampleClient
       = Some (mkDoResult
                 (assign sampleClient (PtrRead 0) (quarantined 50 westEurope))
                 None (Some (RequestError (Body resp3))) None
                 [sampleRequest; sampleRequest; sampleRequest])
    /\ shouldRetry 50 503 1 (PtrRead 0) sampleClient = (true, sampleClient)
    /\ shouldRetry 50 503 2 (PtrRead 0) sampleClient = (true, sampleClient)
    /\ shouldRetry 50 503 3 (PtrRead 0) sampleClient
       = (false, assign sampleClient (PtrRead 0) (quarantined 50 westEurope))
    /\ deref (assign sampleClient (PtrRead 0) (quarantined 50 westEurope))
         (PtrRead 0)
       = Some (quarantined 50 westEurope)
    /\ (forall res,
          do (D:=unit) 50 (alwaysStatus 503) sampleRequest
            (expectStatusCode StatusOK) None (PtrRead 0) sampleClient
          = Some res ->
          deref (res_client res) (PtrRead 0)
          = Some (mkCosmosEndpoint (EndpointName westEurope)
                    (EndpointURL westEurope) false true 50)
          /\ (exists e', deref (res_client res) (PtrRead 0) = Some e'
                /\ IsUnavailable e' = true
                /\ UnavailableTimestamp e' = 50%Z)
          /\ (forall q, q <> PtrRead 0 ->
                deref (res_client res) q = deref sampleClient q)
          /\ Config (res_client res) = Config sampleClient).
Proof.
  apply (do_three_attempts_then_quarantine (D:=unit) 50 (alwaysStatus 503)
           sampleRequest (expectStatusCode StatusOK) None (PtrRead 0)
           sampleClient westEurope);
    [reflexivity | reflexivity | reflexivity | reflexivity |].
  intros n _. exists (mkHttpResponse 503 [] "{}"). split; reflexivity.
Defined.

(** C9: the retry policy changes the registry only when the attempt number
    equals [RetryCount]; so with [RetryCount] = 0 (or below), where the first
    attempt already has number 1, a failing call of [do] makes exactly one
    attempt and leaves the registry, the availability of every endpoint
    included, as it was. *)
Theorem do_without_retry_budget_never_quarantines :
  (forall now statusCode currentAttempt endpoint c,
      (shouldRetry now statusCode currentAttempt endpoint c).2 <> c ->
      currentAttempt = retryCount c)
  /\ (forall (D : Type) now transport r validator (data : option (Decoder D))
        endpoint c,
        (retryCount c <= 0)%Z ->
        happy validator (transport 1%Z r) = false ->
        do now transport r validator data endpoint c
        = Some (mkDoResult c None (errorAfter validator (transport 1%Z r)) None
                  [r])).
Proof.
  split.
  - intros now s a p c Hne.
    destruct (shouldRetry_client now s a p c) as [?|[? _]]; done.
  - intros D now transport r validator data endpoint c Hrc Hfail.
    unfold do. rewrite doLoop_unfold. cbv zeta.
    change (Int64.add 0 1) with 1%Z. rewrite Hfail.
    pose proof (shouldRetry_true now (statusAfter (transport 1%Z r) 0) 1
                  endpoint c) as Htrue.
    destruct (shouldRetry_client now (statusAfter (transport 1%Z r) 0) 1
                endpoint c) as [Hsame|[Heq _]]; [|lia].
    destruct (shouldRetry _ _ _ _ _).1; [destruct Htrue as (_ & ? & _); [done|lia]|].
    by rewrite Hsame.
Qed.

Lemma do_without_retry_budget_never_quarantines_witness :
  do (D:=unit) 50 (alwaysStatus 503) sampleRequest (expectStatusCode StatusOK)
    None (PtrRead 0) noRetryClient
  = Some (mkDoResult noRetryClient None (Some (RequestError "{}")) None
            [sampleRequest]).
Proof.
  pose proof do_without_retry_budget_never_quarantines as [_ Hdo].
  apply (Hdo unit 50%Z (alwaysStatus 503) sampleRequest
           (expectStatusCode StatusOK) None (PtrRead 0) noRetryClient).
  - vm_compute. discriminate.
  - reflexivity.
Defined.

(** ** The default endpoint *)

Lemma Preserved_refl c : Preserved c c.
Proof. by repeat split. Qed.

Lemma Preserved_trans c1 c2 c3 :
  Preserved c1 c2 -> Preserved c2 c3 -> Preserved c1 c3.
Proof.
  intros (Hc & Hi & Hd) (Hc' & Hi' & Hd'). repeat split.
  - congruence.
  - auto.
  - intros H. rewrite <- (Hd H). apply Hd'. by rewrite (Hd H).
Qed.

Lemma deref_assign_inv c p x q e :
  deref (assign c p x) q = Some e -> e = x \/ deref c q = Some e.
Proof.
  destruct p as [|i|i], q as [|j|j]; simpl; intros H; simplify_eq; eauto;
    apply list_lookup_insert_Some in H as [(_ & -> & _)|[_ ?]]; eauto.
Qed.

Lemma Preserved_quarantine now c p e :
  deref c p = Some e -> IsDefaultEndpoint e = false ->
  Preserved c (assign c p (quarantined now e)).
Proof.
  intros He Hd. repeat split.
  - by destruct p.
  - intros Hinv q e' Hq Hdef.
    apply deref_assign_inv in Hq as [->|Hq]; [|by eapply Hinv].
    simpl in Hdef. congruence.
  - intros Hdef. destruct p; simpl in *; [congruence|done|done].
Qed.

Lemma Preserved_mark now p c : Preserved c (markEndpointUnavailable now p c).
Proof.
  unfold markEndpointUnavailable. destruct (deref c p) as [e|] eqn:He.
  - destruct (IsDefaultEndpoint e) eqn:Hd.
    + apply Preserved_refl.
    + by apply Preserved_quarantine.
  - apply Preserved_refl.
Qed.

Lemma Preserved_purge now c :
  Preserved c (purgeStaleEndpointUnavailability now c).
Proof.
  repeat split. intros Hinv q e' Hq Hdef. rewrite deref_purge in Hq.
  assert (Hcell : forall o, purgeOne now (unavailableTimeSec c) <$> o = Some e' ->
                    o = deref c q -> IsUnavailable e' = false).
  { intros [e|] Ho Heq; [|done]. simpl in Ho. injection Ho as <-.
    rewrite purgeOne_default in Hdef.
    assert (IsUnavailable e = false) by (by apply (Hinv q e)).
    by rewrite purgeOne_available. }
  destruct q; [|by eapply Hcell..].
  assert (e' = DefaultEndpoint c) as -> by congruence.
  by apply (Hinv PtrDefault).
Qed.

Lemma getCosmosEndpoint_fst now endpointType c :
  (getCosmosEndpoint now endpointType c).1
  = purgeStaleEndpointUnavailability now c.
Proof.
  unfold getCosmosEndpoint. by destruct endpointType, (firstIndex _ _ _).
Qed.

Lemma Preserved_select now endpointType c :
  Preserved c (getCosmosEndpoint now endpointType c).1.
Proof.
  rewrite getCosmosEndpoint_fst. apply Preserved_purge.
Qed.

Lemma Preserved_do {D : Type} now transport r validator
    (data : option (Decoder D)) endpoint c res :
  do now transport r validator data endpoint c = Some res ->
  Preserved c (res_client res).
Proof.
  intros Hdo. unfold do in Hdo.
  destruct (doLoop_client _ _ _ _ _ _ _ _ _ _ _ _ Hdo)
    as [->|(e & He & Hd & ->)].
  - apply Preserved_refl.
  - by apply Preserved_quarantine.
Qed.

Lemma firstIndex_bound ok k locs i :
  firstIndex ok k locs = Some i -> k <= i < k + length locs.
Proof.
  revert k. induction locs as [|x locs IH]; intros k; [done|].
  simpl. destruct (ok x).
  - intros [= <-]. lia.
  - intros H%IH. lia.
Qed.

(** The selected pointer designates a cell of the registry. *)
Lemma getCosmosEndpoint_deref now endpointType c :
  is_Some (deref (getCosmosEndpoint now endpointType c).1
             (getCosmosEndpoint now endpointType c).2).
Proof.
  unfold getCosmosEndpoint.
  destruct endpointType;
    destruct (firstIndex _ _ _) as [i|] eqn:Hi; simpl; eauto;
    apply firstIndex_bound in Hi; apply lookup_lt_is_Some_2;
    simpl in Hi; lia.
Qed.

Section Sequences.
Variable DefaultHeaders : string -> Request -> option error.
Variable NewRequest : string -> string -> error + Request.

Lemma Preserved_method {D : Type} nowSelect nowRetry transport meth link
    validator (ret : option (Decoder D)) opts c res :
  method DefaultHeaders NewRequest nowSelect nowRetry transport meth link
    validator ret opts c = Some res ->
  Preserved c (res_client res).
Proof.
  unfold method.
  set (ty := if String.eqb meth MethodGet then _ else _).
  pose proof (Preserved_select nowSelect ty c) as Hsel.
  destruct (getCosmosEndpoint nowSelect ty c) as [c1 endpoint].
  simpl in Hsel.
  destruct (deref c1 endpoint); [|done].
  destruct (NewRequest _ _); [by intros [= <-]|].
  destruct (apply _ _ _ _); [by intros [= <-]|].
  intros Hdo%Preserved_do. by eapply Preserved_trans.
Qed.

Lemma method_returns {D : Type} nowSelect nowRetry transport meth link
    validator (ret : option (Decoder D)) opts c :
  WellTyped c ->
  is_Some (method DefaultHeaders NewRequest nowSelect nowRetry transport
             meth link validator ret opts c).
Proof.
  intros Hc. unfold method.
  set (ty := if String.eqb meth MethodGet then _ else _).
  pose proof (getCosmosEndpoint_deref nowSelect ty c) as [e He].
  pose proof (Preserved_select nowSelect ty c) as [Hcfg _].
  destruct (getCosmosEndpoint nowSelect ty c) as [c1 endpoint].
  simpl in *. rewrite He.
  destruct (NewRequest _ _); [by eauto|].
  destruct (apply _ _ _ _); [by eauto|].
  apply do_returns. unfold WellTyped, retryCount in *. by rewrite Hcfg.
Qed.

Lemma step_Preserved op c c' :
  step DefaultHeaders NewRequest op c = Some c' -> Preserved c c'.
Proof.
  destruct op; simpl.
  - intros [= <-]. apply Preserved_mark.
  - intros [= <-]. apply Preserved_purge.
  - intros [= <-]. apply Preserved_select.
  - destruct (do _ _ _ _ _ _ _) eqn:Hdo; [|done].
    intros [= <-]. by eapply Preserved_do.
  - destruct (method _ _ _ _ _ _ _ _ _ _ _) eqn:Hm; [|done].
    intros [= <-]. by eapply Preserved_method.
Qed.

Lemma step_returns op c :
  WellTyped c -> is_Some (step DefaultHeaders NewRequest op c).
Proof.
  intros Hc. destruct op; simpl; try by eauto.
  - by destruct (do_returns now transport r validator data endpoint c Hc)
      as [res ->].
  - by destruct (method_returns nowSelect nowRetry transport meth link
                   validator ret opts c Hc) as [res ->].
Qed.

Lemma run_Preserved ops c c' :
  run DefaultHeaders NewRequest ops c = Some c' -> Preserved c c'.
Proof.
  revert c. induction ops as [|op ops IH]; intros c; simpl.
  - intros [= <-]. apply Preserved_refl.
  - destruct (step _ _ op c) as [c1|] eqn:Hstep; [|done].
    intros Hrun. eapply Preserved_trans; [by eapply step_Preserved|by apply IH].
Qed.

Lemma run_returns ops c :
  WellTyped c -> is_Some (run DefaultHeaders NewRequest ops c).
Proof.
  revert c. induction ops as [|op ops IH]; intros c Hc; simpl; [by eauto|].
  destruct (step_returns op c Hc) as [c1 Hstep]. rewrite Hstep.
  apply IH. apply step_Preserved in Hstep as [Hcfg _].
  unfold WellTyped, retryCount in *. by rewrite Hcfg.
Qed.
End Sequences.

(** C3: [markEndpointUnavailable] leaves the registry as it is when the
    endpoint carries [IsDefaultEndpoint]; hence every sequence of calls of
    [do] and [method] (failing or not), quarantines, purges and selections
    runs to its end and leaves the default endpoint as it was, its
    [IsUnavailable] flag false; more generally no cell that carries
    [IsDefaultEndpoint] is ever made unavailable. *)
Theorem default_endpoint_never_quarantined
    (DefaultHeaders : string -> Request -> option error)
    (NewRequest : string -> string -> error + Request) :
  (forall now endpoint c e,
      deref c endpoint = Some e -> IsDefaultEndpoint e = true ->
      markEndpointUnavailable now endpoint c = c)
  /\ (forall ops c,
        WellTyped c ->
        IsDefaultEndpoint (DefaultEndpoint c) = true ->
        IsUnavailable (DefaultEndpoint c) = false ->
        exists c', run DefaultHeaders NewRequest ops c = Some c'
                   /\ DefaultEndpoint c' = DefaultEndpoint c
                   /\ IsUnavailable (DefaultEndpoint c') = false)
  /\ (forall ops c c',
        run DefaultHeaders NewRequest ops c = Some c' ->
        DefaultNeverQuarantined c -> DefaultNeverQuarantined c').
Proof.
  repeat split.
  - intros now endpoint c e He Hd. unfold markEndpointUnavailable.
    by rewrite He, Hd.
  - intros ops c Hc Hd Hu.
    destruct (run_returns DefaultHeaders NewRequest ops c Hc) as [c' Hrun].
    exists c'. split; [done|].
    apply run_Preserved in Hrun as (_ & _ & Hsame).
    by rewrite (Hsame Hd).
  - intros ops c c' Hrun. by apply run_Preserved in Hrun as (_ & ? & _).
Qed.

Lemma default_endpoint_never_quarantined_witness :
  markEndpointUnavailable 60 PtrDefault sampleClient = sampleClient
  /\ exists c', run plainDefaultHeaders plainNewRequest sampleOps sampleClient
                = Some c'
                /\ DefaultEndpoint c' = DefaultEndpoint sampleClient
                /\ IsUnavailable (DefaultEndpoint c') = false.
Proof.
  pose proof (default_endpoint_never_quarantined plainDefaultHeaders
                plainNewRequest) as (Hmark & Hrun & _).
  split.
  - apply (Hmark 60%Z PtrDefault sampleClient globalEndpoint); reflexivity.
  - apply (Hrun sampleOps sampleClient); [|reflexivity|reflexivity].
    vm_compute. split; discriminate.
Defined.

Lemma purge_idempotent_and_monotone_witness :
  purgeStaleEndpointUnavailability 111
    (purgeStaleEndpointUnavailability 111 degradedClient)
  = purgeStaleEndpointUnavailability 111 degradedClient
  /\ deref (purgeStaleEndpointUnavailability 111 degradedClient) (PtrRead 1)
     = Some eastUS.
Proof.
  pose proof (purge_idempotent_and_monotone 111 degradedClient)
    as (Hidem & Hmono & _).
  split; [exact Hidem|].
  apply (Hmono (PtrRead 1) eastUS); reflexivity.
Defined.


(** * Further properties of the engine *)

(** ** Attempts of [do] *)

Lemma shouldRetry_retry now statusCode currentAttempt p c :
  retryable statusCode -> (currentAttempt < retryCount c)%Z ->
  shouldRetry now statusCode currentAttempt p c = (true, c).
Proof.
  intros Hs Hlt. unfold shouldRetry.
  destruct ((400 <=? statusCode)%Z && (statusCode <=? 413)%Z) eqn:Hr.
  { apply andb_true_iff in Hr as [?%Z.leb_le ?%Z.leb_le].
    unfold retryable in Hs. lia. }
  destruct (Z.ltb_spec currentAttempt (retryCount c)); [done|lia].
Qed.

Lemma shouldRetry_exhausted now statusCode p c :
  retryable statusCode ->
  shouldRetry now statusCode (retryCount c) p c
  = (false, markEndpointUnavailable now p c).
Proof.
  intros Hs. unfold shouldRetry.
  destruct ((400 <=? statusCode)%Z && (statusCode <=? 413)%Z) eqn:Hr.
  { apply andb_true_iff in Hr as [?%Z.leb_le ?%Z.leb_le].
    unfold retryable in Hs. lia. }
  rewrite Z.ltb_irrefl, Z.eqb_refl. simpl.
  unfold markEndpointUnavailable.
  destruct (deref c p) as [e|]; [|done]. by destruct (IsDefaultEndpoint e).
Qed.

Lemma statusAfter_retryable validator rt responseStatusCode :
  failsRetryably validator rt -> retryable responseStatusCode ->
  retryable (statusAfter rt responseStatusCode).
Proof.
  intros [_ Hrt] Hs. unfold statusAfter.
  destruct (rt_resp rt) as [resp|]; [by apply Hrt|done].
Qed.

Section Attempts.
Context {D : Type}.
Variable now : Z.
Variable transport : Transport.
Variable r : Request.
Variable validator : statusCodeValidatorFunc.
Variable data : option (Decoder D).
Variable endpoint : EndpointPtr.

Local Abbreviation loop := (doLoop (D:=D) now transport r validator data endpoint).

(** The requests handed to the transport are copies of the one request. *)
Lemma doLoop_sent fuel currentAttempt responseStatusCode sent c res :
  loop fuel currentAttempt responseStatusCode sent c = Some res ->
  exists n, 1 <= n /\ res_sent res = sent ++ replicate n r.
Proof.
  revert currentAttempt responseStatusCode sent.
  induction fuel as [|fuel IH]; intros a s sent; [done|].
  rewrite doLoop_unfold. cbv zeta.
  destruct (happy validator _).
  - destruct (rt_resp _); [|done]. intros [= <-]. exists 1. split; [lia|].
    unfold succeeded. by destruct data.
  - destruct (shouldRetry _ _ _ _ _).1 eqn:Hv.
    + apply shouldRetry_true in Hv as (-> & _ & _).
      intros (n & Hn & ->)%IH. exists (S n). split; [lia|].
      by rewrite <- app_assoc.
    + intros [= <-]. exists 1. split; [lia|done].
Qed.

(** The number of attempts never exceeds the budget that is left. *)
Lemma doLoop_attempts fuel currentAttempt responseStatusCode sent c res :
  WellTyped c ->
  (0 <= currentAttempt < Int64.max_int)%Z ->
  loop fuel currentAttempt responseStatusCode sent c = Some res ->
  (Z.of_nat (length (res_sent res)) - Z.of_nat (length sent)
   <= Z.max 1 (retryCount c - currentAttempt))%Z.
Proof.
  intros Hc. revert currentAttempt responseStatusCode sent.
  induction fuel as [|fuel IH]; intros a s sent Ha; [done|].
  rewrite doLoop_unfold. cbv zeta.
  assert (Hadd : Int64.add a 1 = (a + 1)%Z).
  { apply Int64_add_in_range. unfold Int64.in_range, Int64.min_int in *. lia. }
  destruct (happy validator _).
  - destruct (rt_resp _); [|done]. intros [= <-].
    assert (res_sent (succeeded data h (sent ++ [r]) c) = sent ++ [r])
      as -> by (unfold succeeded; by destruct data).
    rewrite length_app. simpl. lia.
  - destruct (shouldRetry _ _ _ _ _).1 eqn:Hv.
    + apply shouldRetry_true in Hv as (-> & Hlt & _). rewrite Hadd in *.
      intros Hres%IH; [|unfold WellTyped, Int64.in_range in Hc; lia].
      rewrite length_app in Hres. simpl in Hres. lia.
    + intros [= <-]. simpl. rewrite length_app. simpl. lia.
Qed.

(** What a call of [do] can return. *)
Lemma doLoop_outcome fuel currentAttempt responseStatusCode sent c res :
  loop fuel currentAttempt responseStatusCode sent c = Some res ->
  (exists n resp, transport n r = Responded resp
     /\ validator (StatusCode resp) = true
     /\ res = succeeded data resp (res_sent res) c)
  \/ (res_response res = None /\ res_data res = None
      /\ is_Some (res_err res)).
Proof.
  revert currentAttempt responseStatusCode sent.
  induction fuel as [|fuel IH]; intros a s sent; [done|].
  rewrite doLoop_unfold. cbv zeta.
  destruct (happy validator _) eqn:Hh.
  - destruct (transport (Int64.add a 1) r) as [resp| |] eqn:Hrt; try done.
    simpl in *. intros [= <-]. left. exists (Int64.add a 1), resp.
    repeat split; [done..|]. unfold succeeded. by destruct data.
  - destruct (shouldRetry _ _ _ _ _).1 eqn:Hv.
    + apply shouldRetry_true in Hv as (-> & _ & _). apply IH.
    + intros [= <-]. right. repeat split. simpl.
      by apply errorAfter_is_Some.
Qed.

(** Retryable failures up to the budget: the loop runs to attempt
    [RetryCount] and quarantines. *)
Lemma doLoop_exhausts fuel currentAttempt responseStatusCode sent c :
  WellTyped c ->
  (0 <= currentAttempt < retryCount c)%Z ->
  retryable responseStatusCode ->
  (forall n, (currentAttempt < n <= retryCount c)%Z ->
     failsRetryably validator (transport n r)) ->
  Z.to_nat (retryCount c - currentAttempt) <= fuel ->
  loop fuel currentAttempt responseStatusCode sent c
  = Some (mkDoResult (markEndpointUnavailable now endpoint c) None
            (errorAfter validator (transport (retryCount c) r)) None
            (sent ++ replicate (Z.to_nat (retryCount c - currentAttempt)) r)).
Proof.
  intros Hc. revert currentAttempt responseStatusCode sent.
  induction fuel as [|fuel IH]; intros a s sent Ha Hs Hfail Hfuel; [lia|].
  rewrite doLoop_unfold. cbv zeta.
  assert (Hadd : Int64.add a 1 = (a + 1)%Z).
  { apply Int64_add_in_range.
    unfold WellTyped, Int64.in_range, Int64.min_int in *. lia. }
  rewrite Hadd.
  pose proof (Hfail (a + 1)%Z ltac:(lia)) as Hrt.
  pose proof (statusAfter_retryable _ _ s Hrt Hs) as Hs'.
  destruct Hrt as [-> _].
  destruct (decide (a + 1 = retryCount c)%Z) as [Heq|Hne].
  - rewrite Heq, shouldRetry_exhausted by (by rewrite <- Heq). simpl.
    by replace (Z.to_nat (retryCount c - a)) with 1 by lia.
  - rewrite shouldRetry_retry by (done || lia). simpl.
    rewrite IH; [|lia|done| |lia].
    + do 2 f_equal. rewrite <- app_assoc. f_equal.
      replace (Z.to_nat (retryCount c - a))
        with (S (Z.to_nat (retryCount c - (a + 1)))) by lia.
      done.
    + intros n Hn. apply Hfail. lia.
Qed.

(** Retryable failures, then an accepted response at attempt [k]. *)
Lemma doLoop_recovers fuel currentAttempt responseStatusCode sent c k resp :
  WellTyped c ->
  (0 <= currentAttempt < k)%Z ->
  (k <= Z.max 1 (retryCount c))%Z ->
  (currentAttempt = 0 \/ k <= retryCount c)%Z ->
  retryable responseStatusCode ->
  (forall n, (currentAttempt < n < k)%Z ->
     failsRetryably validator (transport n r)) ->
  transport k r = Responded resp ->
  validator (StatusCode resp) = true ->
  Z.to_nat (k - currentAttempt) <= fuel ->
  loop fuel currentAttempt responseStatusCode sent c
  = Some (succeeded data resp
            (sent ++ replicate (Z.to_nat (k - currentAttempt)) r) c).
Proof.
  intros Hc. revert currentAttempt responseStatusCode sent.
  induction fuel as [|fuel IH];
    intros a s sent Ha Hk Hbudget Hs Hfail Hrt Hok Hfuel; [lia|].
  rewrite doLoop_unfold. cbv zeta.
  assert (Hadd : Int64.add a 1 = (a + 1)%Z).
  { apply Int64_add_in_range.
    unfold WellTyped, Int64.in_range, Int64.min_int, Int64.max_int in *. lia. }
  rewrite Hadd.
  destruct (decide (a + 1 = k)%Z) as [Heq|Hne].
  - rewrite Heq, Hrt. simpl. rewrite Hok.
    by replace (Z.to_nat (k - a)) with 1 by lia.
  - pose proof (Hfail (a + 1)%Z ltac:(lia)) as Hfa.
    pose proof (statusAfter_retryable _ _ s Hfa Hs) as Hs'.
    destruct Hfa as [-> _].
    rewrite shouldRetry_retry by (done || lia). simpl.
    rewrite (IH (a + 1)%Z _ (sent ++ [r]));
      [|lia|done|lia|done| |done|done|lia].
    + f_equal. rewrite <- app_assoc. do 2 f_equal.
      replace (Z.to_nat (k - a)) with (S (Z.to_nat (k - (a + 1)))) by lia.
      done.
    + intros n Hn. apply Hfail. lia.
Qed.
End Attempts.

(** X1: a call of [do] returns after at least one and at most
    [max 1 RetryCount] attempts, and every attempt hands the same request to
    the transport. *)
Theorem do_attempts_bounded {D : Type} (now : Z) (transport : Transport)
    (r : Request) (validator : statusCodeValidatorFunc)
    (data : option (Decoder D)) (endpoint : EndpointPtr) (c : Client) :
  WellTyped c ->
  exists res n,
    do now transport r validator data endpoint c = Some res
    /\ res_sent res = replicate n r
    /\ 1 <= n
    /\ (Z.of_nat n <= Z.max 1 (retryCount c))%Z.
Proof.
  intros Hc.
  destruct (do_returns now transport r validator data endpoint c Hc)
    as [res Hdo].
  unfold do in Hdo.
  destruct (doLoop_sent _ _ _ _ _ _ _ _ _ _ _ _ Hdo) as (n & Hn & Hsent).
  exists res, n. repeat split; [done..|].
  apply doLoop_attempts in Hdo; [|done|unfold Int64.max_int; lia].
  rewrite Hsent in Hdo. simpl in Hdo. rewrite length_replicate in Hdo. lia.
Qed.

Lemma do_attempts_bounded_witness :
  exists res n,
    do (D:=unit) 50 (failsFirst 1) sampleRequest (expectStatusCode StatusOK)
      None (PtrRead 0) sampleClient = Some res
    /\ res_sent res = replicate n sampleRequest
    /\ 1 <= n
    /\ (Z.of_nat n <= Z.max 1 (retryCount sampleClient))%Z.
Proof.
  apply (do_attempts_bounded (D:=unit) 50 (failsFirst 1) sampleRequest
           (expectStatusCode StatusOK) None (PtrRead 0) sampleClient).
  vm_compute. split; discriminate.
Defined.

(** X2: whatever [do] returns is either the happy path on an accepted
    response, with the registry as it was before the call, or a failure with
    no response, nothing decoded and an error that is not nil. *)
Theorem do_success_or_error {D : Type} (now : Z) (transport : Transport)
    (r : Request) (validator : statusCodeValidatorFunc)
    (data : option (Decoder D)) (endpoint : EndpointPtr) (c : Client)
    (res : DoResult D) :
  do now transport r validator data endpoint c = Some res ->
  (exists n resp, transport n r = Responded resp
     /\ validator (StatusCode resp) = true
     /\ res = succeeded data resp (res_sent res) c
     /\ res_client res = c)
  \/ (res_response res = None /\ res_data res = None
      /\ is_Some (res_err res)).
Proof.
  intros Hdo. unfold do in Hdo.
  destruct (doLoop_outcome _ _ _ _ _ _ _ _ _ _ _ _ Hdo)
    as [(n & resp & Hrt & Hok & Hres)|Hfail]; [left|by right].
  exists n, resp. repeat split; [done..|].
  rewrite Hres. unfold succeeded. by destruct data.
Qed.

Lemma do_success_or_error_witness :
  do (D:=unit) 50 (failsFirst 1) sampleRequest (expectStatusCode StatusOK)
    None (PtrRead 0) sampleClient
  = Some (mkDoResult sampleClient None None None
            [sampleRequest; sampleRequest])
  /\
  ((exists n resp, failsFirst 1 n sampleRequest = Responded resp
     /\ expectStatusCode StatusOK (StatusCode resp) = true
     /\ mkDoResult (D:=unit) sampleClient None None None
          [sampleRequest; sampleRequest]
        = succeeded None resp [sampleRequest; sampleRequest] sampleClient
     /\ sampleClient = sampleClient)
  \/ (@None Response = None /\ @None unit = None /\ is_Some (@None error))).
Proof.
  split; [reflexivity|].
  apply (do_success_or_error (D:=unit) 50 (failsFirst 1) sampleRequest
           (expectStatusCode StatusOK) None (PtrRead 0) sampleClient
           (mkDoResult sampleClient None None None
              [sampleRequest; sampleRequest])).
  reflexivity.
Defined.

(** X3: when every attempt up to [RetryCount] (at least 1) fails with a
    status outside [400, 413] or with no response, [do] makes exactly
    [RetryCount] attempts, runs [markEndpointUnavailable] on its endpoint
    once, after the last one, and returns the error of the last attempt. *)
Theorem do_exhausted_budget_quarantines {D : Type} (now : Z)
    (transport : Transport) (r : Request) (validator : statusCodeValidatorFunc)
    (data : option (Decoder D)) (endpoint : EndpointPtr) (c : Client) :
  WellTyped c ->
  (1 <= retryCount c)%Z ->
  (forall n, (1 <= n <= retryCount c)%Z ->
     failsRetryably validator (transport n r)) ->
  do now transport r validator data endpoint c
  = Some (mkDoResult (markEndpointUnavailable now endpoint c) None
            (errorAfter validator (transport (retryCount c) r)) None
            (replicate (Z.to_nat (retryCount c)) r)).
Proof.
  intros Hc Hrc Hfail. unfold do.
  rewrite (doLoop_exhausts now transport r validator data endpoint);
    [by rewrite Z.sub_0_r|done|lia| | |lia].
  - unfold retryable. lia.
  - intros n Hn. apply Hfail. lia.
Qed.

Lemma do_exhausted_budget_quarantines_witness :
  do (D:=unit) 50 (λ _ _, Failed (OtherError "timeout")) sampleRequest
    (expectStatusCode StatusOK) None (PtrWrite 1) sampleClient
  = Some (mkDoResult (markEndpointUnavailable 50 (PtrWrite 1) sampleClient)
            None (Some (OtherError "timeout")) None
            (replicate 3 sampleRequest)).
Proof.
  apply (do_exhausted_budget_quarantines (D:=unit) 50
           (λ _ _, Failed (OtherError "timeout")) sampleRequest
           (expectStatusCode StatusOK) None (PtrWrite 1) sampleClient).
  - vm_compute. split; discriminate.
  - vm_compute. discriminate.
  - intros n _. split; [reflexivity|]. intros resp Hresp. discriminate Hresp.
Defined.

(** X4: when the attempts before attempt [k] fail retryably and attempt [k],
    within the budget, meets an accepted response, [do] returns the happy
    path of that response after exactly [k] attempts and the registry is as
    before: failures that a retry absorbs quarantine nothing. *)
Theorem do_recovers_within_budget {D : Type} (now : Z)
    (transport : Transport) (r : Request) (validator : statusCodeValidatorFunc)
    (data : option (Decoder D)) (endpoint : EndpointPtr) (c : Client)
    (k : Z) (resp : HttpResponse) :
  WellTyped c ->
  (1 <= k <= Z.max 1 (retryCount c))%Z ->
  (forall n, (1 <= n < k)%Z -> failsRetryably validator (transport n r)) ->
  transport k r = Responded resp ->
  validator (StatusCode resp) = true ->
  do now transport r validator data endpoint c
  = Some (succeeded data resp (replicate (Z.to_nat k) r) c).
Proof.
  intros Hc Hk Hfail Hrt Hok. unfold do.
  rewrite (doLoop_recovers now transport r validator data endpoint _ _ _ _ _
             k resp); [by rewrite Z.sub_0_r|done|lia|lia|by left| | |done..|lia].
  - unfold retryable. lia.
  - intros n Hn. apply Hfail. lia.
Qed.

Lemma do_recovers_within_budget_witness :
  do (D:=unit) 50 (failsFirst 2) sampleRequest (expectStatusCode StatusOK)
    None (PtrRead 0) sampleClient
  = Some (mkDoResult sampleClient None None None
            [sampleRequest; sampleRequest; sampleRequest]).
Proof.
  apply (do_recovers_within_budget (D:=unit) 50 (failsFirst 2) sampleRequest
           (expectStatusCode StatusOK) None (PtrRead 0) sampleClient 3
           (mkHttpResponse 200 [] "{}")).
  - vm_compute. split; discriminate.
  - vm_compute. split; discriminate.
  - intros n Hn. assert (n = 1 \/ n = 2)%Z as [-> | ->] by lia;
      (split; [reflexivity|]; intros resp [= <-]; vm_compute;
       intros [_ H]; by apply H).
  - reflexivity.
  - reflexivity.
Defined.

(** X5: a call of [do] on an endpoint that carries [IsDefaultEndpoint]
    returns and leaves the whole registry as it was, whatever the transport
    answers. *)
Theorem do_on_default_keeps_registry {D : Type} (now : Z)
    (transport : Transport) (r : Request) (validator : statusCodeValidatorFunc)
    (data : option (Decoder D)) (endpoint : EndpointPtr) (c : Client)
    (e : CosmosEndpoint) :
  WellTyped c ->
  deref c endpoint = Some e ->
  IsDefaultEndpoint e = true ->
  exists res, do now transport r validator data endpoint c = Some res
              /\ res_client res = c.
Proof.
  intros Hc He Hd.
  destruct (do_returns now transport r validator data endpoint c Hc)
    as [res Hdo].
  exists res. split; [done|]. unfold do in Hdo.
  destruct (doLoop_client _ _ _ _ _ _ _ _ _ _ _ _ Hdo)
    as [->|(e' & He' & Hd' & _)]; [done|congruence].
Qed.

Lemma do_on_default_keeps_registry_witness :
  exists res,
    do (D:=unit) 50 (alwaysStatus 500) sampleRequest
      (expectStatusCode StatusOK) None PtrDefault sampleClient = Some res
    /\ res_client res = sampleClient.
Proof.
  apply (do_on_default_keeps_registry (D:=unit) 50 (alwaysStatus 500)
           sampleRequest (expectStatusCode StatusOK) None PtrDefault
           sampleClient globalEndpoint); [|reflexivity|reflexivity].
  vm_compute. split; discriminate.
Defined.

(** ** Quarantine, purge and selection together *)

Lemma purge_purge now c :
  purgeStaleEndpointUnavailability now (purgeStaleEndpointUnavailability now c)
  = purgeStaleEndpointUnavailability now c.
Proof.
  unfold purgeStaleEndpointUnavailability. simpl.
  change (unavailableTimeSec (mkClient _ _ _ _)) with (unavailableTimeSec c).
  rewrite !purgeLocations_fmap.
  f_equal; rewrite <- list_fmap_compose; apply list_fmap_ext;
    intros; apply purgeOne_idem.
Qed.

Lemma firstIndex_Some_inv ok k locs i :
  firstIndex ok k locs = Some i ->
  k <= i /\ exists e, locs !! (i - k) = Some e /\ ok e = true.
Proof.
  revert k. induction locs as [|x locs IH]; intros k; [done|].
  simpl. destruct (ok x) eqn:Hx.
  - intros [= <-]. split; [lia|]. exists x. by rewrite Nat.sub_diag.
  - intros (Hle & e & He & Hok)%IH. split; [lia|]. exists e.
    replace (i - k) with (S (i - S k)) by lia. done.
Qed.

(** The pointer returned by the selection, read in the returned registry. *)
Lemma getCosmosEndpoint_cell now endpointType c :
  match (getCosmosEndpoint now endpointType c).2 with
  | PtrDefault => True
  | PtrRead i =>
      endpointType = EndpointType_ReadOnly
      /\ exists e, ReadLocations (purgeStaleEndpointUnavailability now c) !! i
                   = Some e /\ IsUnavailable e = false
  | PtrWrite i =>
      endpointType = EndpointType_ReadWrite
      /\ UseMultipleWriteLocations (RegionalOptions (Config c)) = true
      /\ exists e, WriteLocations (purgeStaleEndpointUnavailability now c) !! i
                   = Some e /\ IsUnavailable e = false
  end.
Proof.
  unfold getCosmosEndpoint.
  destruct endpointType;
    destruct (firstIndex _ _ _) as [i|] eqn:Hi; simpl; try done;
    apply firstIndex_Some_inv in Hi as (_ & e & He & Hok);
    rewrite Nat.sub_0_r in He.
  - split; [done|]. exists e. split; [done|]. by destruct (IsUnavailable e).
  - apply andb_true_iff in Hok as [Hav Hm]. repeat split; [done|].
    exists e. split; [done|]. by destruct (IsUnavailable e).
Qed.

Lemma deref_assign_eq c p e x :
  deref c p = Some e -> deref (assign c p x) p = Some x.
Proof.
  destruct p; simpl; [done| |]; intros H%lookup_lt_Some;
    by apply list_lookup_insert_eq.
Qed.

Lemma deref_assign_ne c p q x :
  p <> q -> deref (assign c p x) q = deref c q.
Proof.
  destruct p, q; simpl; try done; intros Hne;
    apply list_lookup_insert_ne; congruence.
Qed.

Lemma assign_assign c p x y : assign (assign c p y) p x = assign c p x.
Proof. destruct p; simpl; by rewrite ?list_insert_insert_eq. Qed.

Lemma purgeOne_quarantined_fresh now now' threshold e :
  Int64.in_range (now' - now) -> (now' <= now + threshold)%Z ->
  purgeOne now' threshold (quarantined now e) = quarantined now e.
Proof.
  intros Hr Hle. unfold purgeOne, stale. simpl.
  rewrite Int64_sub_in_range by done.
  by destruct (Z.ltb_spec threshold (now' - now)); [lia|].
Qed.

Lemma purgeOne_quarantined_stale now now' threshold e :
  Int64.in_range (now' - now) -> (now' > now + threshold)%Z ->
  purgeOne now' threshold (quarantined now e) = released e.
Proof.
  intros Hr Hgt. unfold purgeOne, stale. simpl.
  rewrite Int64_sub_in_range by done.
  by destruct (Z.ltb_spec threshold (now' - now)); [|lia].
Qed.

(** X6: on an endpoint that does not carry [IsDefaultEndpoint],
    [markEndpointUnavailable] sets [IsUnavailable] and stamps the time in
    that cell, keeps its name, URL and default flag, and leaves every other
    cell and the configuration as they were. *)
Theorem markEndpointUnavailable_touches_one_cell
    (now : Z) (p : EndpointPtr) (c : Client) (e : CosmosEndpoint) :
  deref c p = Some e ->
  IsDefaultEndpoint e = false ->
  deref (markEndpointUnavailable now p c) p
  = Some (mkCosmosEndpoint (EndpointName e) (EndpointURL e) false true now)
  /\ (forall q, q <> p ->
        deref (markEndpointUnavailable now p c) q = deref c q)
  /\ Config (markEndpointUnavailable now p c) = Config c
  /\ length (ReadLocations (markEndpointUnavailable now p c))
     = length (ReadLocations c)
  /\ length (WriteLocations (markEndpointUnavailable now p c))
     = length (WriteLocations c).
Proof.
  intros He Hd. unfold markEndpointUnavailable. rewrite He, Hd.
  repeat split.
  - rewrite (deref_assign_eq _ _ e) by done. unfold quarantined. by rewrite Hd.
  - intros q Hq. by apply deref_assign_ne.
  - by destruct p.
  - destruct p; simpl; by rewrite ?length_insert.
  - destruct p; simpl; by rewrite ?length_insert.
Qed.

Lemma markEndpointUnavailable_touches_one_cell_witness :
  deref (markEndpointUnavailable 50 (PtrRead 0) sampleClient) (PtrRead 0)
  = Some (mkCosmosEndpoint (EndpointName westEurope) (EndpointURL westEurope)
            false true 50)
  /\ (forall q, q <> PtrRead 0 ->
        deref (markEndpointUnavailable 50 (PtrRead 0) sampleClient) q
        = deref sampleClient q)
  /\ Config (markEndpointUnavailable 50 (PtrRead 0) sampleClient)
     = Config sampleClient
  /\ length (ReadLocations (markEndpointUnavailable 50 (PtrRead 0) sampleClient))
     = length (ReadLocations sampleClient)
  /\ length (WriteLocations (markEndpointUnavailable 50 (PtrRead 0) sampleClient))
     = length (WriteLocations sampleClient).
Proof.
  apply (markEndpointUnavailable_touches_one_cell 50 (PtrRead 0) sampleClient
           westEurope); reflexivity.
Defined.

(** X7: quarantining an endpoint again only refreshes its timestamp: two
    calls of [markEndpointUnavailable] on the same endpoint leave the
    registry that the second call alone would leave. *)
Theorem markEndpointUnavailable_last_call_wins
    (now1 now2 : Z) (p : EndpointPtr) (c : Client) :
  markEndpointUnavailable now2 p (markEndpointUnavailable now1 p c)
  = markEndpointUnavailable now2 p c.
Proof.
  unfold markEndpointUnavailable at 2 3.
  destruct (deref c p) as [e|] eqn:He.
  - destruct (IsDefaultEndpoint e) eqn:Hd.
    + unfold markEndpointUnavailable. by rewrite He, Hd.
    + unfold markEndpointUnavailable.
      rewrite (deref_assign_eq _ _ e) by done. simpl. rewrite Hd.
      by rewrite assign_assign.
  - unfold markEndpointUnavailable. by rewrite He.
Qed.

(** X8: the pointer that [getCosmosEndpoint] returns designates a cell of
    the returned registry; when it is not the default endpoint, the cell
    belongs to the list of the requested type (with
    [UseMultipleWriteLocations] set for writes) and is not unavailable. *)
Theorem getCosmosEndpoint_returns_available_cell
    (now : Z) (endpointType : EndpointType) (c : Client) :
  exists e,
    deref (getCosmosEndpoint now endpointType c).1
      (getCosmosEndpoint now endpointType c).2 = Some e
    /\ match (getCosmosEndpoint now endpointType c).2 with
       | PtrDefault => e = DefaultEndpoint c
       | PtrRead _ =>
           endpointType = EndpointType_ReadOnly /\ IsUnavailable e = false
       | PtrWrite _ =>
           endpointType = EndpointType_ReadWrite
           /\ IsUnavailable e = false
           /\ UseMultipleWriteLocations (RegionalOptions (Config c)) = true
       end.
Proof.
  pose proof (getCosmosEndpoint_cell now endpointType c) as Hcell.
  rewrite getCosmosEndpoint_fst.
  destruct (getCosmosEndpoint now endpointType c).2 as [|i|i]; simpl.
  - by exists (DefaultEndpoint c).
  - destruct Hcell as (Hty & e & He & Hav). by exists e.
  - destruct Hcell as (Hty & Hm & e & He & Hav). by exists e.
Qed.

(** A freshly quarantined cell, read after a purge within the cooldown. *)
Lemma deref_purge_quarantined now now' p c e :
  p <> PtrDefault ->
  deref c p = Some e ->
  IsDefaultEndpoint e = false ->
  Int64.in_range (now' - now) ->
  (now' <= now + unavailableTimeSec c)%Z ->
  deref (purgeStaleEndpointUnavailability now'
           (markEndpointUnavailable now p c)) p
  = Some (quarantined now e).
Proof.
  intros Hp He Hd Hr Hle.
  rewrite deref_purge. unfold markEndpointUnavailable. rewrite He, Hd.
  assert (unavailableTimeSec (assign c p (quarantined now e))
          = unavailableTimeSec c) as -> by (by destruct p).
  destruct p; [done| |]; rewrite (deref_assign_eq _ _ e) by done; simpl;
    by rewrite purgeOne_quarantined_fresh.
Qed.

(** X9: an endpoint of a location list quarantined at time [now] is not
    selected by any [getCosmosEndpoint] at a time up to [now] plus the
    cooldown. *)
Theorem quarantined_endpoint_not_selected_in_cooldown
    (now now' : Z) (endpointType : EndpointType) (p : EndpointPtr)
    (c : Client) (e : CosmosEndpoint) :
  p <> PtrDefault ->
  deref c p = Some e ->
  IsDefaultEndpoint e = false ->
  Int64.in_range (now' - now) ->
  (now' <= now + unavailableTimeSec c)%Z ->
  (getCosmosEndpoint now' endpointType (markEndpointUnavailable now p c)).2
  <> p.
Proof.
  intros Hp He Hd Hr Hle Hsel.
  pose proof (getCosmosEndpoint_cell now' endpointType
                (markEndpointUnavailable now p c)) as Hcell.
  rewrite Hsel in Hcell.
  pose proof (deref_purge_quarantined now now' p c e Hp He Hd Hr Hle) as Hq.
  destruct p as [|i|i]; [done| |].
  - destruct Hcell as (_ & e' & He' & Hav).
    pose proof (eq_trans (eq_sym He') Hq) as Heq. by injection Heq as ->.
  - destruct Hcell as (_ & _ & e' & He' & Hav).
    pose proof (eq_trans (eq_sym He') Hq) as Heq. by injection Heq as ->.
Qed.

Lemma quarantined_endpoint_not_selected_in_cooldown_witness :
  (getCosmosEndpoint 60 EndpointType_ReadOnly
     (markEndpointUnavailable 50 (PtrRead 0) sampleClient)).2
  <> PtrRead 0.
Proof.
  apply (quarantined_endpoint_not_selected_in_cooldown 50 60
           EndpointType_ReadOnly (PtrRead 0) sampleClient westEurope);
    [discriminate | reflexivity | reflexivity
    | vm_compute; split; discriminate | vm_compute; discriminate].
Defined.

(** X10: a first read location quarantined at time [now] is selected again,
    with [IsUnavailable] false and the timestamp 0, by a
    [getCosmosEndpoint] for reading at any time later than [now] plus the
    cooldown; the same holds for the first write location when
    [UseMultipleWriteLocations] is set. *)
Theorem quarantined_endpoint_selected_after_cooldown
    (now now' : Z) (c : Client) :
  Int64.in_range (now' - now) ->
  (now' > now + unavailableTimeSec c)%Z ->
  (forall e, deref c (PtrRead 0) = Some e -> IsDefaultEndpoint e = false ->
     let selected :=
       getCosmosEndpoint now' EndpointType_ReadOnly
         (markEndpointUnavailable now (PtrRead 0) c) in
     selected.2 = PtrRead 0
     /\ deref selected.1 (PtrRead 0) = Some (released e))
  /\ (forall e, deref c (PtrWrite 0) = Some e -> IsDefaultEndpoint e = false ->
        UseMultipleWriteLocations (RegionalOptions (Config c)) = true ->
        let selected :=
          getCosmosEndpoint now' EndpointType_ReadWrite
            (markEndpointUnavailable now (PtrWrite 0) c) in
        selected.2 = PtrWrite 0
        /\ deref selected.1 (PtrWrite 0) = Some (released e)).
Proof.
  intros Hr Hgt. split.
  - intros e He Hd. simpl in He.
    destruct (ReadLocations c) as [|x rest] eqn:Hlocs; simplify_eq/=.
    unfold getCosmosEndpoint, purgeStaleEndpointUnavailability,
      markEndpointUnavailable. simpl. rewrite Hlocs. simpl. rewrite Hd. simpl.
    rewrite !purgeLocations_fmap. simpl.
    change (unavailableTimeSec (mkClient _ _ _ _)) with (unavailableTimeSec c).
    by rewrite purgeOne_quarantined_stale.
  - intros e He Hd Hm. simpl in He.
    destruct (WriteLocations c) as [|x rest] eqn:Hlocs; simplify_eq/=.
    unfold getCosmosEndpoint, purgeStaleEndpointUnavailability,
      markEndpointUnavailable. simpl. rewrite Hlocs. simpl. rewrite Hd. simpl.
    rewrite !purgeLocations_fmap. simpl.
    change (unavailableTimeSec (mkClient _ _ _ _)) with (unavailableTimeSec c).
    rewrite purgeOne_quarantined_stale by done. simpl. by rewrite Hm.
Qed.

Lemma quarantined_endpoint_selected_after_cooldown_witness :
  (getCosmosEndpoint 61 EndpointType_ReadOnly
     (markEndpointUnavailable 50 (PtrRead 0) sampleClient)).2 = PtrRead 0
  /\ deref (getCosmosEndpoint 61 EndpointType_ReadOnly
             (markEndpointUnavailable 50 (PtrRead 0) sampleClient)).1
       (PtrRead 0) = Some westEurope.
Proof.
  destruct (quarantined_endpoint_selected_after_cooldown 50 61 sampleClient)
    as [Hread _].
  - vm_compute. split; discriminate.
  - vm_compute. reflexivity.
  - apply (Hread westEurope); reflexivity.
Defined.

(** X11: the purge changes nothing but health: the configuration, the
    default endpoint, and the names, URLs and default flags of the read and
    write locations, in their order, are those of before. *)
Theorem purge_keeps_endpoint_identity (now : Z) (c : Client) :
  let purged := purgeStaleEndpointUnavailability now c in
  Config purged = Config c
  /\ DefaultEndpoint purged = DefaultEndpoint c
  /\ EndpointName <$> ReadLocations purged = EndpointName <$> ReadLocations c
  /\ EndpointURL <$> ReadLocations purged = EndpointURL <$> ReadLocations c
  /\ IsDefaultEndpoint <$> ReadLocations purged
     = IsDefaultEndpoint <$> ReadLocations c
  /\ EndpointName <$> WriteLocations purged = EndpointName <$> WriteLocations c
  /\ EndpointURL <$> WriteLocations purged = EndpointURL <$> WriteLocations c
  /\ IsDefaultEndpoint <$> WriteLocations purged
     = IsDefaultEndpoint <$> WriteLocations c.
Proof.
  simpl. rewrite !purgeLocations_fmap.
  repeat split; rewrite <- list_fmap_compose; apply list_fmap_ext;
    intros i e _; simpl; unfold purgeOne; by destruct (_ && _).
Qed.

(** X12: selecting twice at the same clock value gives what selecting once
    gives: the second [getCosmosEndpoint] returns the same registry and the
    same pointer. *)
Theorem getCosmosEndpoint_idempotent
    (now : Z) (endpointType : EndpointType) (c : Client) :
  getCosmosEndpoint now endpointType (getCosmosEndpoint now endpointType c).1
  = getCosmosEndpoint now endpointType c.
Proof.
  rewrite getCosmosEndpoint_fst. unfold getCosmosEndpoint.
  by rewrite purge_purge.
Qed.

(** ** Rediscovery, beyond a single match *)

Lemma preferStep_Permutation prefLoc locations current i :
  current ≡ₚ locations ->
  preferStep prefLoc locations current i ≡ₚ locations.
Proof.
  intros Hcur. unfold preferStep.
  destruct (locations !! i) as [loc|] eqn:Hi; [|done].
  destruct (String.eqb _ _); [|done].
  rewrite <- (take_drop_middle locations i loc Hi) at 3.
  simpl. apply Permutation_middle.
Qed.

Lemma preferLoop_Permutation prefLoc locations idxs current :
  current ≡ₚ locations ->
  foldl (preferStep prefLoc locations) current idxs ≡ₚ locations.
Proof.
  revert current. induction idxs as [|i idxs IH]; intros current Hcur; [done|].
  simpl. apply IH. by apply preferStep_Permutation.
Qed.

(** The loop after its first [n] iterations, past the last entry that bears
    the preferred name. *)
Lemma prefer_last prefLoc locations k e n :
  locations !! k = Some e ->
  EndpointName e = prefLoc ->
  (forall j e', k < j -> locations !! j = Some e' ->
     EndpointName e' <> prefLoc) ->
  k < n <= length locations ->
  foldl (preferStep prefLoc locations) locations (seq 0 n)
  = e :: take k locations ++ drop (S k) locations.
Proof.
  intros Hk Hname Hlater. induction n as [|n IH]; intros Hn; [lia|].
  rewrite seq_S, foldl_app. cbn [foldl Nat.add].
  destruct (decide (n = k)) as [->|Hne].
  - by apply preferStep_match.
  - destruct (lookup_lt_is_Some_2 locations n) as [x Hx]; [lia|].
    rewrite (preferStep_other _ _ _ _ x); [apply IH; lia|done|].
    apply (Hlater n); [lia|done].
Qed.

(** X13: the stored list is always a permutation of the discovered list,
    however many entries bear the preferred location's name: rediscovery
    reorders, it neither drops nor duplicates a location. *)
Theorem preferredFirst_is_permutation
    (prefLoc : string) (locations : list CosmosEndpoint) :
  preferredFirst prefLoc locations ≡ₚ locations
  /\ length (preferredFirst prefLoc locations) = length locations.
Proof.
  assert (H : preferredFirst prefLoc locations ≡ₚ locations)
    by (by apply preferLoop_Permutation).
  split; [done|]. by rewrite H.
Qed.

(** X14: when several entries bear the preferred location's name, the last
    of them is the one moved to the front; the others stay where they
    were. *)
Theorem preferredFirst_last_match_wins
    (prefLoc : string) (locations : list CosmosEndpoint) (k : nat)
    (e : CosmosEndpoint) :
  locations !! k = Some e ->
  EndpointName e = prefLoc ->
  (forall j e', k < j -> locations !! j = Some e' ->
     EndpointName e' <> prefLoc) ->
  preferredFirst prefLoc locations
  = e :: take k locations ++ drop (S k) locations.
Proof.
  intros Hk Hname Hlater. unfold preferredFirst.
  apply prefer_last; [done..|]. apply lookup_lt_Some in Hk. lia.
Qed.

Lemma preferredFirst_last_match_wins_witness :
  preferredFirst "East US"
    [eastUS; westEurope; quarantined 7 eastUS; northEurope]
  = [quarantined 7 eastUS; eastUS; westEurope; northEurope].
Proof.
  apply (preferredFirst_last_match_wins "East US"
           [eastUS; westEurope; quarantined 7 eastUS; northEurope] 2
           (quarantined 7 eastUS)); [reflexivity | reflexivity |].
  intros [|[|[|[|j]]]] e' Hj He'; try lia; [|done].
  vm_compute in He'. injection He' as <-. discriminate.
Defined.

(** X15: a [GetRegionalEndpoints] that returns no error keeps the
    configuration and the default endpoint, and stores permutations of the
    readable and writable locations decoded from an accepted response: the
    previous lists, with their health state, are gone. *)
Theorem GetRegionalEndpoints_success_replaces_lists
    (DefaultHeaders : string -> Request -> option error)
    (NewRequest : string -> string -> error + Request)
    (now : Z) (transport : Transport) (readJson : Decoder EndpointDescription)
    (c c' : Client) :
  GetRegionalEndpoints DefaultHeaders NewRequest now transport readJson c
  = Some (c', None) ->
  Config c' = Config c
  /\ DefaultEndpoint c' = DefaultEndpoint c
  /\ exists req n resp,
       transport n req = Responded resp
       /\ StatusCode resp = StatusOK
       /\ ReadLocations c' ≡ₚ ReadableLocations (readJson (Body resp)).1
       /\ WriteLocations c' ≡ₚ WritableLocations (readJson (Body resp)).1.
Proof.
  unfold GetRegionalEndpoints.
  destruct (NewRequest _ _) as [err|req]; [done|].
  destruct (apply _ _ _ _); [done|].
  unfold do.
  destruct (doLoop _ _ _ _ _ _ _ _ _ _ _) as [res|] eqn:Hdo; [|done].
  destruct (res_err res) eqn:Herr; [done|].
  apply doLoop_success in Hdo as (Hc & n & resp & Hrt & Hok & _ & Hdata);
    [|done].
  rewrite Hc, Hdata. simpl. intros [= <-]. simpl.
  repeat split. exists req, n, resp.
  repeat split; [done| |by apply preferLoop_Permutation..].
  unfold expectStatusCode in Hok. lia.
Qed.

Lemma GetRegionalEndpoints_success_replaces_lists_witness :
  Config (mkClient (sampleConfig 3 10) globalEndpoint [eastUS; westEurope]
            [eastUS; westEurope]) = Config degradedClient
  /\ DefaultEndpoint (mkClient (sampleConfig 3 10) globalEndpoint
                        [eastUS; westEurope] [eastUS; westEurope])
     = DefaultEndpoint degradedClient
  /\ exists req n resp,
       alwaysStatus 200 n req = Responded resp
       /\ StatusCode resp = StatusOK
       /\ [eastUS; westEurope]
          ≡ₚ ReadableLocations (sampleReadJson (Body resp)).1
       /\ [eastUS; westEurope]
          ≡ₚ WritableLocations (sampleReadJson (Body resp)).1.
Proof.
  apply (GetRegionalEndpoints_success_replaces_lists plainDefaultHeaders
           plainNewRequest 0 (alwaysStatus 200) sampleReadJson degradedClient
           (mkClient (sampleConfig 3 10) globalEndpoint [eastUS; westEurope]
              [eastUS; westEurope])).
  reflexivity.
Defined.

(** ** Requests built by [method] and the verbs *)

Lemma do_sent_same {D : Type} now transport r validator
    (data : option (Decoder D)) endpoint c res :
  do now transport r validator data endpoint c = Some res ->
  forall req, req ∈ res_sent res -> req = r.
Proof.
  intros Hdo req Hreq. unfold do in Hdo.
  apply doLoop_sent in Hdo as (n & _ & Hsent).
  rewrite Hsent in Hreq. simpl in Hreq. by apply elem_of_replicate_inv in Hreq.
Qed.

Lemma do_registry {D : Type} now transport r validator
    (data : option (Decoder D)) endpoint c res :
  do now transport r validator data endpoint c = Some res ->
  res_client res = c
  \/ res_client res = markEndpointUnavailable now endpoint c.
Proof.
  intros Hdo. unfold do in Hdo.
  destruct (doLoop_client _ _ _ _ _ _ _ _ _ _ _ _ Hdo)
    as [->|(e & He & Hd & ->)]; [by left|right].
  unfold markEndpointUnavailable. by rewrite He, Hd.
Qed.

Lemma do_without_destination {D : Type} now transport r validator endpoint c
    (res : DoResult D) :
  do now transport r validator None endpoint c = Some res ->
  res_response res = None /\ res_data res = None.
Proof.
  intros Hdo. unfold do in Hdo.
  destruct (doLoop_outcome _ _ _ _ _ _ _ _ _ _ _ _ Hdo)
    as [(n & resp & _ & _ & ->)|(? & ? & _)]; done.
Qed.

Lemma getCosmosEndpoint_single_write now c :
  UseMultipleWriteLocations (RegionalOptions (Config c)) = false ->
  getCosmosEndpoint now EndpointType_ReadWrite c
  = (purgeStaleEndpointUnavailability now c, PtrDefault).
Proof.
  intros Hm. unfold getCosmosEndpoint.
  rewrite firstIndex_None; [done|].
  intros i e _. simpl. rewrite Hm. apply andb_false_r.
Qed.

Section VerbFacts.
Variable DefaultHeaders : string -> Request -> option error.
Variable NewRequest : string -> string -> error + Request.

(** The common tail of [method] and [Query]: build the request on the URL
    of the selected endpoint, then [do]. *)
Lemma request_on_selected {D : Type} nowRetry transport meth link validator
    (ret : option (Decoder D)) opts c1 endpoint e res :
  deref c1 endpoint = Some e ->
  match NewRequest meth (String.append (EndpointURL e) (String.append "/" link))
  with
  | inl err => Some (mkDoResult c1 None (Some err) None [])
  | inr req =>
      match apply DefaultHeaders c1 req opts with
      | Some err => Some (mkDoResult c1 None (Some err) None [])
      | None => do nowRetry transport req validator ret endpoint c1
      end
  end = Some res ->
  (forall req, req ∈ res_sent res ->
     NewRequest meth (String.append (EndpointURL e) (String.append "/" link))
     = inr req)
  /\ (res_client res = c1
      \/ res_client res = markEndpointUnavailable nowRetry endpoint c1).
Proof.
  intros He.
  destruct (NewRequest _ _) as [err|req0].
  { intros [= <-]. split; [by intros req ?%elem_of_nil|by left]. }
  destruct (apply _ _ _ _).
  { intros [= <-]. split; [by intros req ?%elem_of_nil|by left]. }
  intros Hdo. split; [|by eapply do_registry].
  intros req Hreq. by rewrite (do_sent_same _ _ _ _ _ _ _ _ Hdo req Hreq).
Qed.

(** X16: every request that [method] hands to the transport is the one built
    for the verb on the URL of the endpoint selected for it (the read list
    for GET, the write list otherwise) followed by "/" and the link; the
    registry it leaves is the purged one, with at most that endpoint
    quarantined. *)
Theorem method_sends_to_selected_endpoint {D : Type}
    (nowSelect nowRetry : Z) (transport : Transport) (meth link : string)
    (validator : statusCodeValidatorFunc) (ret : option (Decoder D))
    (opts : list CallOption) (c : Client) (res : DoResult D) :
  method DefaultHeaders NewRequest nowSelect nowRetry transport meth link
    validator ret opts c = Some res ->
  let endpointType :=
    if String.eqb meth MethodGet then EndpointType_ReadOnly
    else EndpointType_ReadWrite in
  let selected := getCosmosEndpoint nowSelect endpointType c in
  exists e,
    deref selected.1 selected.2 = Some e
    /\ (forall req, req ∈ res_sent res ->
          NewRequest meth
            (String.append (EndpointURL e) (String.append "/" link))
          = inr req)
    /\ (res_client res = selected.1
        \/ res_client res
           = markEndpointUnavailable nowRetry selected.2 selected.1).
Proof.
  intros Hm endpointType selected. unfold method in Hm.
  fold endpointType in Hm. fold selected in Hm.
  destruct selected as [c1 endpoint]. simpl.
  destruct (deref c1 endpoint) as [e|] eqn:He; [|done].
  exists e. split; [done|]. by eapply request_on_selected.
Qed.

(** X17: with [UseMultipleWriteLocations] unset, every request of [method]
    for a verb other than GET is built on the URL of the default endpoint,
    whatever the write list holds; when that endpoint carries
    [IsDefaultEndpoint], the registry left behind is just the purged one. *)
Theorem method_single_write_region_uses_default {D : Type}
    (nowSelect nowRetry : Z) (transport : Transport) (meth link : string)
    (validator : statusCodeValidatorFunc) (ret : option (Decoder D))
    (opts : list CallOption) (c : Client) (res : DoResult D) :
  String.eqb meth MethodGet = false ->
  UseMultipleWriteLocations (RegionalOptions (Config c)) = false ->
  method DefaultHeaders NewRequest nowSelect nowRetry transport meth link
    validator ret opts c = Some res ->
  (forall req, req ∈ res_sent res ->
     NewRequest meth
       (String.append (EndpointURL (DefaultEndpoint c)) (String.append "/" link))
     = inr req)
  /\ (IsDefaultEndpoint (DefaultEndpoint c) = true ->
      res_client res = purgeStaleEndpointUnavailability nowSelect c).
Proof.
  intros Hverb Hmulti. unfold method.
  rewrite Hverb, getCosmosEndpoint_single_write by done.
  cbn [deref DefaultEndpoint purgeStaleEndpointUnavailability].
  intros Hres.
  eapply request_on_selected in Hres as [Hsent Hreg]; [|done].
  split; [done|]. intros Hd.
  destruct Hreg as [->| ->]; [done|].
  unfold markEndpointUnavailable. simpl. by rewrite Hd.
Qed.

(** X18: when [http.NewRequest] refuses the request, or the default headers
    cannot be set, [method] returns that failure without handing anything
    to the transport; the purge of the selection has still taken place. *)
Theorem method_construction_failure_sends_nothing {D : Type}
    (nowSelect nowRetry : Z) (transport : Transport) (meth link : string)
    (validator : statusCodeValidatorFunc) (ret : option (Decoder D))
    (opts : list CallOption) (c : Client) (err : error) :
  (forall url, NewRequest meth url = inl err)
  \/ (forall req, DefaultHeaders (MasterKey (Config c)) req = Some err) ->
  exists err',
    method DefaultHeaders NewRequest nowSelect nowRetry transport meth link
      validator ret opts c
    = Some (mkDoResult (purgeStaleEndpointUnavailability nowSelect c) None
              (Some err') None []).
Proof.
  intros Hfail. unfold method.
  set (ty := if String.eqb meth MethodGet then _ else _).
  pose proof (getCosmosEndpoint_deref nowSelect ty c) as [e He].
  pose proof (getCosmosEndpoint_fst nowSelect ty c) as Hfst.
  destruct (getCosmosEndpoint nowSelect ty c) as [c1 endpoint].
  simpl in *. subst c1. rewrite He.
  destruct Hfail as [Hnew|Hhdr].
  - rewrite Hnew. by exists err.
  - destruct (NewRequest _ _) as [err0|req]; [by exists err0|].
    unfold apply. simpl. rewrite Hhdr. by exists err.
Qed.

(** X19: [Delete] never returns a response or decoded data, on success as
    on failure: with no destination, the happy path of [do] returns nil for
    both results. *)
Theorem Delete_returns_no_response
    (nowSelect nowRetry : Z) (transport : Transport) (link : string)
    (opts : list CallOption) (c : Client) (res : DoResult unit) :
  Delete DefaultHeaders NewRequest nowSelect nowRetry transport link opts c
  = Some res ->
  res_response res = None /\ res_data res = None.
Proof.
  unfold Delete, method.
  destruct (getCosmosEndpoint _ _ _) as [c1 endpoint].
  destruct (deref c1 endpoint); [|done].
  destruct (NewRequest _ _); [by intros [= <-]|].
  destruct (apply _ _ _ _); [by intros [= <-]|].
  apply do_without_destination.
Qed.

(** X20: [Query], although a POST, is sent like [Read] to the endpoint
    selected for reading: all requests of either are built on the URL of
    the endpoint that [getCosmosEndpoint] returns for ReadOnly; when the
    query cannot be encoded, [Query] returns the error and leaves the
    registry untouched, purge included. *)
Theorem Query_and_Read_use_read_endpoint {D : Type}
    (nowSelect nowRetry : Z) (transport : Transport) (link : string)
    (ret : option (Decoder D)) (opts : list CallOption) (c : Client) :
  let selected := getCosmosEndpoint nowSelect EndpointType_ReadOnly c in
  (forall res,
      Query DefaultHeaders NewRequest None nowSelect nowRetry transport link
        ret opts c = Some res ->
      exists e, deref selected.1 selected.2 = Some e
        /\ forall req, req ∈ res_sent res ->
             NewRequest MethodPost
               (String.append (EndpointURL e) (String.append "/" link))
             = inr req)
  /\ (forall res,
        Read DefaultHeaders NewRequest nowSelect nowRetry transport link
          ret opts c = Some res ->
        exists e, deref selected.1 selected.2 = Some e
          /\ forall req, req ∈ res_sent res ->
               NewRequest MethodGet
                 (String.append (EndpointURL e) (String.append "/" link))
               = inr req)
  /\ (forall err,
        Query DefaultHeaders NewRequest (Some err) nowSelect nowRetry transport
          link ret opts c
        = Some (mkDoResult c None (Some err) None [])).
Proof.
  intros selected. repeat split.
  - intros res. unfold Query. fold selected.
    destruct selected as [c1 endpoint]. simpl.
    destruct (deref c1 endpoint) as [e|] eqn:He; [|done].
    intros Hres. exists e. split; [done|].
    by eapply request_on_selected in Hres as [Hsent _].
  - intros res. unfold Read, method.
    change (String.eqb MethodGet MethodGet) with true. cbv iota.
    fold selected. destruct selected as [c1 endpoint]. simpl.
    destruct (deref c1 endpoint) as [e|] eqn:He; [|done].
    intros Hres. exists e. split; [done|].
    by eapply request_on_selected in Hres as [Hsent _].
Qed.
End VerbFacts.

Lemma method_sends_to_selected_endpoint_witness :
  exists e,
    deref (getCosmosEndpoint 40 EndpointType_ReadOnly sampleClient).1
      (getCosmosEndpoint 40 EndpointType_ReadOnly sampleClient).2 = Some e
    /\ (forall req,
          req ∈ [mkRequest "GET" "https://acct-westeurope.documents.azure.com/dbs"] ->
          plainNewRequest "GET"
            (String.append (EndpointURL e) (String.append "/" "dbs"))
          = inr req)
    /\ (sampleClient
        = (getCosmosEndpoint 40 EndpointType_ReadOnly sampleClient).1
        \/ sampleClient
           = markEndpointUnavailable 50
               (getCosmosEndpoint 40 EndpointType_ReadOnly sampleClient).2
               (getCosmosEndpoint 40 EndpointType_ReadOnly sampleClient).1).
Proof.
  apply (method_sends_to_selected_endpoint plainDefaultHeaders plainNewRequest
           (D:=unit) 40 50 (alwaysStatus 200)
           "GET" "dbs" (expectStatusCode StatusOK) None [] sampleClient
           (mkDoResult sampleClient None None None
              [mkRequest "GET"
                 "https://acct-westeurope.documents.azure.com/dbs"])).
  reflexivity.
Defined.

Lemma method_single_write_region_uses_default_witness :
  (forall req,
      req ∈ [mkRequest "PUT" "https://acct.documents.azure.com/dbs"] ->
      plainNewRequest "PUT"
        (String.append (EndpointURL (DefaultEndpoint singleWriteClient))
           (String.append "/" "dbs"))
      = inr req)
  /\ (IsDefaultEndpoint (DefaultEndpoint singleWriteClient) = true ->
      singleWriteClient = purgeStaleEndpointUnavailability 40 singleWriteClient).
Proof.
  apply (method_single_write_region_uses_default plainDefaultHeaders
           plainNewRequest (D:=unit) 40 50 (alwaysStatus 200) "PUT" "dbs"
           (expectStatusCode StatusOK) None [] singleWriteClient
           (mkDoResult singleWriteClient None None None
              [mkRequest "PUT" "https://acct.documents.azure.com/dbs"]));
    reflexivity.
Defined.

Lemma method_construction_failure_sends_nothing_witness :
  exists err',
    method plainDefaultHeaders failingNewRequest (D:=unit) 105 106
      (alwaysStatus 200) "GET" "dbs" (expectStatusCode StatusOK) None []
      degradedClient
    = Some (mkDoResult (purgeStaleEndpointUnavailability 105 degradedClient)
              None (Some err') None []).
Proof.
  apply (method_construction_failure_sends_nothing plainDefaultHeaders
           failingNewRequest (D:=unit) 105 106 (alwaysStatus 200) "GET" "dbs"
           (expectStatusCode StatusOK) None [] degradedClient
           (OtherError "invalid method")).
  left. reflexivity.
Defined.

Lemma Delete_returns_no_response_witness :
  Delete plainDefaultHeaders plainNewRequest 40 50 (alwaysStatus 204) "dbs/1"
    [] sampleClient
  = Some (mkDoResult sampleClient None None None
            [mkRequest "DELETE"
               "https://acct-westeurope.documents.azure.com/dbs/1"])
  /\ @None Response = None /\ @None unit = None.
Proof.
  split; [reflexivity|].
  apply (Delete_returns_no_response plainDefaultHeaders plainNewRequest 40 50
           (alwaysStatus 204) "dbs/1" [] sampleClient
           (mkDoResult sampleClient None None None
              [mkRequest "DELETE"
                 "https://acct-westeurope.documents.azure.com/dbs/1"])).
  reflexivity.
Defined.

Lemma Query_and_Read_use_read_endpoint_witness :
  exists e,
    deref (getCosmosEndpoint 105 EndpointType_ReadOnly degradedClient).1
      (getCosmosEndpoint 105 EndpointType_ReadOnly degradedClient).2 = Some e
    /\ forall req,
         req ∈ [mkRequest "POST" "https://acct-eastus.documents.azure.com/docs"] ->
         plainNewRequest MethodPost
           (String.append (EndpointURL e) (String.append "/" "docs"))
         = inr req.
Proof.
  pose proof (Query_and_Read_use_read_endpoint plainDefaultHeaders
                plainNewRequest (D:=unit) 105 106 (alwaysStatus 200) "docs"
                None [] degradedClient) as (Hquery & _ & _).
  apply (Hquery (mkDoResult degradedClient None None None
                   [mkRequest "POST"
                      "https://acct-eastus.documents.azure.com/docs"])).
  reflexivity.
Defined.

(** ** The client before health tracking *)

Lemma purge_all_available now c :
  Forall (λ e, IsUnavailable e = false) (ReadLocations c) ->
  Forall (λ e, IsUnavailable e = false) (WriteLocations c) ->
  purgeStaleEndpointUnavailability now c = c.
Proof.
  intros Hr Hw. unfold purgeStaleEndpointUnavailability.
  rewrite !purgeLocations_fmap.
  assert (Hid : forall locs, Forall (λ e, IsUnavailable e = false) locs ->
                  purgeOne now (unavailableTimeSec c) <$> locs = locs).
  { intros locs Hall. induction Hall as [|e locs He _ IH]; [done|].
    by rewrite fmap_cons, IH, purgeOne_available. }
  rewrite !Hid by done. by destruct c.
Qed.

(** X21: on a registry where no location is unavailable, the URL of the
    endpoint that [getCosmosEndpoint] selects is the URL that the earlier
    [getEndpointURL] returns for the same lists and configuration: health
    tracking changes the routing only once an endpoint is quarantined. *)
Theorem getCosmosEndpoint_agrees_with_getEndpointURL
    (now : Z) (endpointType : EndpointType) (c : Client) :
  Forall (λ e, IsUnavailable e = false) (ReadLocations c) ->
  Forall (λ e, IsUnavailable e = false) (WriteLocations c) ->
  exists e,
    deref (getCosmosEndpoint now endpointType c).1
      (getCosmosEndpoint now endpointType c).2 = Some e
    /\ EndpointURL e = Legacy.getEndpointURL endpointType (legacyOf c)
    /\ (getCosmosEndpoint now endpointType c).1 = c.
Proof.
  intros Hr Hw. unfold getCosmosEndpoint.
  rewrite (purge_all_available now c Hr Hw).
  destruct endpointType; simpl.
  - destruct (ReadLocations c) as [|x rest] eqn:Hlocs; simpl.
    { by exists (DefaultEndpoint c). }
    apply Forall_cons in Hr as [Hx _]. rewrite Hx. simpl.
    exists x. by rewrite Hlocs.
  - destruct (WriteLocations c) as [|x rest] eqn:Hlocs; simpl.
    { by exists (DefaultEndpoint c). }
    apply Forall_cons in Hw as [Hx _]. rewrite Hx. simpl.
    destruct (UseMultipleWriteLocations (RegionalOptions (Config c))) eqn:Hm;
      simpl.
    { exists x. by rewrite Hlocs. }
    rewrite firstIndex_None; [by exists (DefaultEndpoint c)|].
    intros i e _. apply andb_false_r.
Qed.

Lemma getCosmosEndpoint_agrees_with_getEndpointURL_witness :
  exists e,
    deref (getCosmosEndpoint 40 EndpointType_ReadWrite singleWriteClient).1
      (getCosmosEndpoint 40 EndpointType_ReadWrite singleWriteClient).2
    = Some e
    /\ EndpointURL e
       = Legacy.getEndpointURL EndpointType_ReadWrite
           (legacyOf singleWriteClient)
    /\ (getCosmosEndpoint 40 EndpointType_ReadWrite singleWriteClient).1
       = singleWriteClient.
Proof.
  apply (getCosmosEndpoint_agrees_with_getEndpointURL 40
           EndpointType_ReadWrite singleWriteClient);
    repeat constructor.
Defined.

(** X22: with a retry count of at most 1, [do] makes one attempt and returns
    the response, error and decoded data that the earlier single-shot [do]
    returns for that attempt, provided the transport does not hand back both
    an error and a response with a rejected status (there the earlier [do]
    returns the transport's error and the retrying one the error decoded
    from the response). *)
Theorem do_single_attempt_agrees_with_legacy {D : Type} (now : Z)
    (transport : Transport) (r : Request) (validator : statusCodeValidatorFunc)
    (data : option (Decoder D)) (endpoint : EndpointPtr) (c : Client) :
  (retryCount c <= 1)%Z ->
  (forall resp err, transport 1%Z r = FailedWithResponse resp err ->
     validator (StatusCode resp) = true) ->
  exists res,
    do now transport r validator data endpoint c = Some res
    /\ (res_response res, res_err res, res_data res)
       = Legacy.do (transport 1%Z) r validator data
    /\ res_sent res = [r].
Proof.
  intros Hrc Hboth. unfold do. rewrite doLoop_unfold. cbv zeta.
  change (Int64.add 0 1) with 1%Z.
  set (status := statusAfter (transport 1%Z r) 0).
  pose proof (shouldRetry_true now status 1 endpoint c) as Htrue.
  assert (Hstop : (shouldRetry now status 1 endpoint c).1 = false).
  { destruct (shouldRetry now status 1 endpoint c).1; [|done].
    destruct Htrue as (_ & ? & _); [done|lia]. }
  rewrite Hstop. unfold Legacy.do, happy, errorAfter, succeeded.
  destruct (transport 1%Z r) as [resp|err|resp err] eqn:Hrt; simpl.
  - destruct (validator (StatusCode resp)); simpl; [|by eexists].
    destruct data as [readJson|]; [|by eexists].
    destruct (readJson (Body resp)); by eexists.
  - by eexists.
  - rewrite (Hboth resp err) by done. by eexists.
Qed.

Lemma do_single_attempt_agrees_with_legacy_witness :
  exists res,
    do (D:=unit) 50 (alwaysStatus 503) sampleRequest
      (expectStatusCode StatusOK) None (PtrRead 0) noRetryClient = Some res
    /\ (res_response res, res_err res, res_data res)
       = Legacy.do (alwaysStatus 503 1%Z) sampleRequest
           (expectStatusCode StatusOK) None
    /\ res_sent res = [sampleRequest].
Proof.
  apply (do_single_attempt_agrees_with_legacy (D:=unit) 50 (alwaysStatus 503)
           sampleRequest (expectStatusCode StatusOK) None (PtrRead 0)
           noRetryClient).
  - vm_compute. discriminate.
  - intros resp err Hrt. discriminate Hrt.
Defined.

(** ** Failover *)

(** X23: the registry after [shouldRetry] is the one that
    [markEndpointUnavailable] leaves when the status is outside [400, 413]
    and the attempt number equals [RetryCount], and the registry of before
    in every other case. *)
Theorem shouldRetry_registry_effect
    (now statusCode currentAttempt : Z) (currentEndpoint : EndpointPtr)
    (c : Client) :
  (shouldRetry now statusCode currentAttempt currentEndpoint c).2
  = if decide (retryable statusCode /\ currentAttempt = retryCount c)
    then markEndpointUnavailable now currentEndpoint c
    else c.
Proof.
  destruct (decide _) as [[Hs ->]|Hno].
  - by rewrite shouldRetry_exhausted.
  - unfold shouldRetry, retryable in *.
    destruct ((400 <=? statusCode)%Z && (statusCode <=? 413)%Z) eqn:Hr;
      [done|].
    apply andb_false_iff in Hr.
    destruct (currentAttempt <? retryCount c)%Z; [done|].
    destruct (Z.eqb_spec currentAttempt (retryCount c)) as [Heq|Hne];
      [|done].
    exfalso. apply Hno. split; [|done].
    intros [? ?]. destruct Hr as [?%Z.leb_gt|?%Z.leb_gt]; lia.
Qed.

(** X24: failover.  When a call of [do] on a selected location (not the
    default endpoint, not flagged as default) sees every attempt up to
    [RetryCount] fail retryably, no [getCosmosEndpoint] on the registry it
    leaves returns that location again until the cooldown has passed. *)
Theorem exhausted_endpoint_is_failed_over {D : Type}
    (nowRetry now' : Z) (transport : Transport) (r : Request)
    (validator : statusCodeValidatorFunc) (data : option (Decoder D))
    (endpointType : EndpointType) (p : EndpointPtr) (c : Client)
    (e : CosmosEndpoint) :
  WellTyped c ->
  (1 <= retryCount c)%Z ->
  p <> PtrDefault ->
  deref c p = Some e ->
  IsDefaultEndpoint e = false ->
  (forall n, (1 <= n <= retryCount c)%Z ->
     failsRetryably validator (transport n r)) ->
  Int64.in_range (now' - nowRetry) ->
  (now' <= nowRetry + unavailableTimeSec c)%Z ->
  exists res,
    do nowRetry transport r validator data p c = Some res
    /\ (getCosmosEndpoint now' endpointType (res_client res)).2 <> p.
Proof.
  intros Hc Hrc Hp He Hd Hfail Hr Hle.
  eexists. split.
  - unfold do.
    rewrite (doLoop_exhausts nowRetry transport r validator data p);
      [done|done|lia| | |lia].
    + unfold retryable. lia.
    + intros n Hn. apply Hfail. lia.
  - simpl. intros Hsel.
    pose proof (getCosmosEndpoint_cell now' endpointType
                  (markEndpointUnavailable nowRetry p c)) as Hcell.
    rewrite Hsel in Hcell.
    pose proof (deref_purge_quarantined nowRetry now' p c e Hp He Hd Hr Hle)
      as Hq.
    destruct p as [|i|i]; [done| |].
    + destruct Hcell as (_ & e' & He' & Hav).
      pose proof (eq_trans (eq_sym He') Hq) as Heq. by injection Heq as ->.
    + destruct Hcell as (_ & _ & e' & He' & Hav).
      pose proof (eq_trans (eq_sym He') Hq) as Heq. by injection Heq as ->.
Qed.

Lemma exhausted_endpoint_is_failed_over_witness :
  exists res,
    do (D:=unit) 50 (alwaysStatus 503) sampleRequest
      (expectStatusCode StatusOK) None (PtrRead 0) sampleClient = Some res
    /\ (getCosmosEndpoint 55 EndpointType_ReadOnly (res_client res)).2
       <> PtrRead 0.
Proof.
  apply (exhausted_endpoint_is_failed_over (D:=unit) 50 55 (alwaysStatus 503)
           sampleRequest (expectStatusCode StatusOK) None
           EndpointType_ReadOnly (PtrRead 0) sampleClient westEurope).
  - vm_compute. split; discriminate.
  - vm_compute. discriminate.
  - discriminate.
  - reflexivity.
  - reflexivity.
  - intros n _. split; [reflexivity|]. intros resp [= <-]. vm_compute.
    intros [_ H]. by apply H.
  - vm_compute. split; discriminate.
  - vm_compute. discriminate.
Defined.
